(** * Text normalisation and vocabulary construction of the wav2vec2 notebook

    The notebook [sagemaker-fine-tune-wav2vec2-presentation.ipynb] prepares
    the transcripts of a speech corpus in two steps:

    - [remove_special_characters] strips eight punctuation characters from
      a transcript and lowercases what is left;
    - the vocabulary cell joins the transcripts of each split with a space,
      takes the set of characters, enumerates it into [vocab_dict], renames
      the key of the space character to the word delimiter and appends the
      two reserved tokens.

    [remove_special_characters] is modelled twice.  The module [Unicode]
    has it on every Python [str], a sequence of code points, with
    [str.lower] as CPython computes it from the case data of Unicode 14.0.
    The definitions after the module have it on the strings whose code
    points are all below 256, one [ascii] each, and
    [latin1_remove_special_characters] shows that the two agree there.
    The vocabulary cell and the cells after it are modelled on the strings
    of the second kind: a Python [dict] with string keys is a
    [gmap string nat], a Python [set] of characters is a [gset ascii]. *)

From Stdlib Require Import Ascii String.
From stdpp Require Import base option list sets gmap strings pretty.

Local Open Scope string_scope.
Local Open Scope nat_scope.

#[local] Set Warnings "-clear-no-such-hyp".

(** ** [remove_special_characters] on Python strings *)

Module Unicode.

(** A Python [str] is a sequence of code points. *)
Abbreviation str := (list N).

(** The [str] of a literal whose characters are all below 256. *)
Definition of_string (s : string) : str :=
  N_of_ascii <$> String.list_ascii_of_string s.

(** The code points from [first] to [last]. *)
Definition code_range (first last : N) : list N :=
  (λ k, first + N.of_nat k)%N <$> seq 0 (S (N.to_nat (last - first))).

(** The character class of [chars_to_ignore_regex]: eight escaped literals
    between square brackets, the comma, the question mark, the full stop,
    the exclamation mark, the hyphen, the semicolon, the colon and the
    double quote. *)
Definition chars_to_ignore : list N :=
  [0x2C; 0x3F; 0x2E; 0x21; 0x2D; 0x3B; 0x3A; 0x22]%N.

Definition is_ignored (c : N) : bool := bool_decide (c ∈ chars_to_ignore).

(** [re.sub(chars_to_ignore_regex, '', text)]: every match of the character
    class is replaced by the empty string. *)
Fixpoint re_sub_ignore (text : str) : str :=
  match text with
  | [] => []
  | c :: rest =>
      if is_ignored c then re_sub_ignore rest else c :: re_sub_ignore rest
  end.

(** *** Case data

    The tables that [str.lower] and [str.isupper] read, from the Unicode
    Character Database, version 14.0. *)

(** The code points with a lowercase mapping of one code point other than
    themselves.  An entry (first, last, step, image) stands for the code
    points first, first + step, ..., last and gives the image of the first;
    the images advance by the same step. *)
Definition lower_ranges : list (N * N * N * N) :=
  [
   (0x41, 0x5A, 1, 0x61); (0xC0, 0xD6, 1, 0xE0); (0xD8, 0xDE, 1, 0xF8);
   (0x100, 0x12E, 2, 0x101); (0x132, 0x136, 2, 0x133);
   (0x139, 0x147, 2, 0x13A); (0x14A, 0x176, 2, 0x14B);
   (0x178, 0x178, 1, 0xFF); (0x179, 0x17D, 2, 0x17A);
   (0x181, 0x181, 1, 0x253); (0x182, 0x184, 2, 0x183);
   (0x186, 0x186, 1, 0x254); (0x187, 0x187, 1, 0x188);
   (0x189, 0x18A, 1, 0x256); (0x18B, 0x18B, 1, 0x18C);
   (0x18E, 0x18E, 1, 0x1DD); (0x18F, 0x18F, 1, 0x259);
   (0x190, 0x190, 1, 0x25B); (0x191, 0x191, 1, 0x192);
   (0x193, 0x193, 1, 0x260); (0x194, 0x194, 1, 0x263);
   (0x196, 0x196, 1, 0x269); (0x197, 0x197, 1, 0x268);
   (0x198, 0x198, 1, 0x199); (0x19C, 0x19C, 1, 0x26F);
   (0x19D, 0x19D, 1, 0x272); (0x19F, 0x19F, 1, 0x275);
   (0x1A0, 0x1A4, 2, 0x1A1); (0x1A6, 0x1A6, 1, 0x280);
   (0x1A7, 0x1A7, 1, 0x1A8); (0x1A9, 0x1A9, 1, 0x283);
   (0x1AC, 0x1AC, 1, 0x1AD); (0x1AE, 0x1AE, 1, 0x288);
   (0x1AF, 0x1AF, 1, 0x1B0); (0x1B1, 0x1B2, 1, 0x28A);
   (0x1B3, 0x1B5, 2, 0x1B4); (0x1B7, 0x1B7, 1, 0x292);
   (0x1B8, 0x1B8, 1, 0x1B9); (0x1BC, 0x1BC, 1, 0x1BD);
   (0x1C4, 0x1C4, 1, 0x1C6); (0x1C5, 0x1C5, 1, 0x1C6);
   (0x1C7, 0x1C7, 1, 0x1C9); (0x1C8, 0x1C8, 1, 0x1C9);
   (0x1CA, 0x1CA, 1, 0x1CC); (0x1CB, 0x1DB, 2, 0x1CC);
   (0x1DE, 0x1EE, 2, 0x1DF); (0x1F1, 0x1F1, 1, 0x1F3);
   (0x1F2, 0x1F4, 2, 0x1F3); (0x1F6, 0x1F6, 1, 0x195);
   (0x1F7, 0x1F7, 1, 0x1BF); (0x1F8, 0x21E, 2, 0x1F9);
   (0x220, 0x220, 1, 0x19E); (0x222, 0x232, 2, 0x223);
   (0x23A, 0x23A, 1, 0x2C65); (0x23B, 0x23B, 1, 0x23C);
   (0x23D, 0x23D, 1, 0x19A); (0x23E, 0x23E, 1, 0x2C66);
   (0x241, 0x241, 1, 0x242); (0x243, 0x243, 1, 0x180);
   (0x244, 0x244, 1, 0x289); (0x245, 0x245, 1, 0x28C);
   (0x246, 0x24E, 2, 0x247); (0x370, 0x372, 2, 0x371);
   (0x376, 0x376, 1, 0x377); (0x37F, 0x37F, 1, 0x3F3);
   (0x386, 0x386, 1, 0x3AC); (0x388, 0x38A, 1, 0x3AD);
   (0x38C, 0x38C, 1, 0x3CC); (0x38E, 0x38F, 1, 0x3CD);
   (0x391, 0x3A1, 1, 0x3B1); (0x3A3, 0x3AB, 1, 0x3C3);
   (0x3CF, 0x3CF, 1, 0x3D7); (0x3D8, 0x3EE, 2, 0x3D9);
   (0x3F4, 0x3F4, 1, 0x3B8); (0x3F7, 0x3F7, 1, 0x3F8);
   (0x3F9, 0x3F9, 1, 0x3F2); (0x3FA, 0x3FA, 1, 0x3FB);
   (0x3FD, 0x3FF, 1, 0x37B); (0x400, 0x40F, 1, 0x450);
   (0x410, 0x42F, 1, 0x430); (0x460, 0x480, 2, 0x461);
   (0x48A, 0x4BE, 2, 0x48B); (0x4C0, 0x4C0, 1, 0x4CF);
   (0x4C1, 0x4CD, 2, 0x4C2); (0x4D0, 0x52E, 2, 0x4D1);
   (0x531, 0x556, 1, 0x561); (0x10A0, 0x10C5, 1, 0x2D00);
   (0x10C7, 0x10C7, 1, 0x2D27); (0x10CD, 0x10CD, 1, 0x2D2D);
   (0x13A0, 0x13EF, 1, 0xAB70); (0x13F0, 0x13F5, 1, 0x13F8);
   (0x1C90, 0x1CBA, 1, 0x10D0); (0x1CBD, 0x1CBF, 1, 0x10FD);
   (0x1E00, 0x1E94, 2, 0x1E01); (0x1E9E, 0x1E9E, 1, 0xDF);
   (0x1EA0, 0x1EFE, 2, 0x1EA1); (0x1F08, 0x1F0F, 1, 0x1F00);
   (0x1F18, 0x1F1D, 1, 0x1F10); (0x1F28, 0x1F2F, 1, 0x1F20);
   (0x1F38, 0x1F3F, 1, 0x1F30); (0x1F48, 0x1F4D, 1, 0x1F40);
   (0x1F59, 0x1F5F, 2, 0x1F51); (0x1F68, 0x1F6F, 1, 0x1F60);
   (0x1F88, 0x1F8F, 1, 0x1F80); (0x1F98, 0x1F9F, 1, 0x1F90);
   (0x1FA8, 0x1FAF, 1, 0x1FA0); (0x1FB8, 0x1FB9, 1, 0x1FB0);
   (0x1FBA, 0x1FBB, 1, 0x1F70); (0x1FBC, 0x1FBC, 1, 0x1FB3);
   (0x1FC8, 0x1FCB, 1, 0x1F72); (0x1FCC, 0x1FCC, 1, 0x1FC3);
   (0x1FD8, 0x1FD9, 1, 0x1FD0); (0x1FDA, 0x1FDB, 1, 0x1F76);
   (0x1FE8, 0x1FE9, 1, 0x1FE0); (0x1FEA, 0x1FEB, 1, 0x1F7A);
   (0x1FEC, 0x1FEC, 1, 0x1FE5); (0x1FF8, 0x1FF9, 1, 0x1F78);
   (0x1FFA, 0x1FFB, 1, 0x1F7C); (0x1FFC, 0x1FFC, 1, 0x1FF3);
   (0x2126, 0x2126, 1, 0x3C9); (0x212A, 0x212A, 1, 0x6B);
   (0x212B, 0x212B, 1, 0xE5); (0x2132, 0x2132, 1, 0x214E);
   (0x2160, 0x216F, 1, 0x2170); (0x2183, 0x2183, 1, 0x2184);
   (0x24B6, 0x24CF, 1, 0x24D0); (0x2C00, 0x2C2F, 1, 0x2C30);
   (0x2C60, 0x2C60, 1, 0x2C61); (0x2C62, 0x2C62, 1, 0x26B);
   (0x2C63, 0x2C63, 1, 0x1D7D); (0x2C64, 0x2C64, 1, 0x27D);
   (0x2C67, 0x2C6B, 2, 0x2C68); (0x2C6D, 0x2C6D, 1, 0x251);
   (0x2C6E, 0x2C6E, 1, 0x271); (0x2C6F, 0x2C6F, 1, 0x250);
   (0x2C70, 0x2C70, 1, 0x252); (0x2C72, 0x2C72, 1, 0x2C73);
   (0x2C75, 0x2C75, 1, 0x2C76); (0x2C7E, 0x2C7F, 1, 0x23F);
   (0x2C80, 0x2CE2, 2, 0x2C81); (0x2CEB, 0x2CED, 2, 0x2CEC);
   (0x2CF2, 0x2CF2, 1, 0x2CF3); (0xA640, 0xA66C, 2, 0xA641);
   (0xA680, 0xA69A, 2, 0xA681); (0xA722, 0xA72E, 2, 0xA723);
   (0xA732, 0xA76E, 2, 0xA733); (0xA779, 0xA77B, 2, 0xA77A);
   (0xA77D, 0xA77D, 1, 0x1D79); (0xA77E, 0xA786, 2, 0xA77F);
   (0xA78B, 0xA78B, 1, 0xA78C); (0xA78D, 0xA78D, 1, 0x265);
   (0xA790, 0xA792, 2, 0xA791); (0xA796, 0xA7A8, 2, 0xA797);
   (0xA7AA, 0xA7AA, 1, 0x266); (0xA7AB, 0xA7AB, 1, 0x25C);
   (0xA7AC, 0xA7AC, 1, 0x261); (0xA7AD, 0xA7AD, 1, 0x26C);
   (0xA7AE, 0xA7AE, 1, 0x26A); (0xA7B0, 0xA7B0, 1, 0x29E);
   (0xA7B1, 0xA7B1, 1, 0x287); (0xA7B2, 0xA7B2, 1, 0x29D);
   (0xA7B3, 0xA7B3, 1, 0xAB53); (0xA7B4, 0xA7C2, 2, 0xA7B5);
   (0xA7C4, 0xA7C4, 1, 0xA794); (0xA7C5, 0xA7C5, 1, 0x282);
   (0xA7C6, 0xA7C6, 1, 0x1D8E); (0xA7C7, 0xA7C9, 2, 0xA7C8);
   (0xA7D0, 0xA7D0, 1, 0xA7D1); (0xA7D6, 0xA7D8, 2, 0xA7D7);
   (0xA7F5, 0xA7F5, 1, 0xA7F6); (0xFF21, 0xFF3A, 1, 0xFF41);
   (0x10400, 0x10427, 1, 0x10428); (0x104B0, 0x104D3, 1, 0x104D8);
   (0x10570, 0x1057A, 1, 0x10597); (0x1057C, 0x1058A, 1, 0x105A3);
   (0x1058C, 0x10592, 1, 0x105B3); (0x10594, 0x10595, 1, 0x105BB);
   (0x10C80, 0x10CB2, 1, 0x10CC0); (0x118A0, 0x118BF, 1, 0x118C0);
   (0x16E40, 0x16E5F, 1, 0x16E60); (0x1E900, 0x1E921, 1, 0x1E922)
  ]%N.

Definition expand (r : N * N * N * N) : list (N * N) :=
  let '(first, last, step, image) := r in
  (λ k, (first + N.of_nat k * step, image + N.of_nat k * step)%N)
    <$> seq 0 (S (N.to_nat ((last - first) / step))).

Definition lower_table : list (N * N) :=
  Eval vm_compute in flat_map expand lower_ranges.

Fixpoint lookup_table (c : N) (table : list (N * N)) : option N :=
  match table with
  | [] => None
  | (k, v) :: rest => if (c =? k)%N then Some v else lookup_table c rest
  end.

(** The full lowercase mapping of one code point: U+0130 is the only one
    that maps to more than one code point. *)
Definition to_lower_full (c : N) : list N :=
  if (c =? 0x130)%N then [0x69; 0x307]%N
  else match lookup_table c lower_table with
       | Some image => [image]
       | None => [c]
       end.

Definition in_ranges (c : N) (ranges : list (N * N)) : bool :=
  existsb (λ '(first, last), (first <=? c)%N && (c <=? last)%N) ranges.

Definition in_stepped_ranges (c : N) (ranges : list (N * N * N)) : bool :=
  existsb (λ '(first, last, step),
             (first <=? c)%N && (c <=? last)%N
             && ((c - first) mod step =? 0)%N) ranges.

(** The code points for which [str.isupper] holds (property Uppercase);
    (first, last, step) as above. *)
Definition upper_ranges : list (N * N * N) :=
  [
   (0x41, 0x5A, 1); (0xC0, 0xD6, 1); (0xD8, 0xDE, 1); (0x100, 0x136, 2);
   (0x139, 0x147, 2); (0x14A, 0x178, 2); (0x179, 0x17D, 2);
   (0x181, 0x182, 1); (0x184, 0x186, 2); (0x187, 0x189, 2);
   (0x18A, 0x18B, 1); (0x18E, 0x191, 1); (0x193, 0x194, 1);
   (0x196, 0x198, 1); (0x19C, 0x19D, 1); (0x19F, 0x1A0, 1);
   (0x1A2, 0x1A6, 2); (0x1A7, 0x1A9, 2); (0x1AC, 0x1AE, 2);
   (0x1AF, 0x1B1, 2); (0x1B2, 0x1B3, 1); (0x1B5, 0x1B7, 2);
   (0x1B8, 0x1B8, 1); (0x1BC, 0x1BC, 1); (0x1C4, 0x1C4, 1);
   (0x1C7, 0x1C7, 1); (0x1CA, 0x1CA, 1); (0x1CD, 0x1DB, 2);
   (0x1DE, 0x1EE, 2); (0x1F1, 0x1F1, 1); (0x1F4, 0x1F6, 2);
   (0x1F7, 0x1F8, 1); (0x1FA, 0x232, 2); (0x23A, 0x23B, 1);
   (0x23D, 0x23E, 1); (0x241, 0x243, 2); (0x244, 0x246, 1);
   (0x248, 0x24E, 2); (0x370, 0x372, 2); (0x376, 0x376, 1);
   (0x37F, 0x37F, 1); (0x386, 0x388, 2); (0x389, 0x38A, 1);
   (0x38C, 0x38E, 2); (0x38F, 0x391, 2); (0x392, 0x3A1, 1);
   (0x3A3, 0x3AB, 1); (0x3CF, 0x3CF, 1); (0x3D2, 0x3D4, 1);
   (0x3D8, 0x3EE, 2); (0x3F4, 0x3F4, 1); (0x3F7, 0x3F9, 2);
   (0x3FA, 0x3FA, 1); (0x3FD, 0x42F, 1); (0x460, 0x480, 2);
   (0x48A, 0x4C0, 2); (0x4C1, 0x4CD, 2); (0x4D0, 0x52E, 2);
   (0x531, 0x556, 1); (0x10A0, 0x10C5, 1); (0x10C7, 0x10C7, 1);
   (0x10CD, 0x10CD, 1); (0x13A0, 0x13F5, 1); (0x1C90, 0x1CBA, 1);
   (0x1CBD, 0x1CBF, 1); (0x1E00, 0x1E94, 2); (0x1E9E, 0x1EFE, 2);
   (0x1F08, 0x1F0F, 1); (0x1F18, 0x1F1D, 1); (0x1F28, 0x1F2F, 1);
   (0x1F38, 0x1F3F, 1); (0x1F48, 0x1F4D, 1); (0x1F59, 0x1F5F, 2);
   (0x1F68, 0x1F6F, 1); (0x1FB8, 0x1FBB, 1); (0x1FC8, 0x1FCB, 1);
   (0x1FD8, 0x1FDB, 1); (0x1FE8, 0x1FEC, 1); (0x1FF8, 0x1FFB, 1);
   (0x2102, 0x2102, 1); (0x2107, 0x2107, 1); (0x210B, 0x210D, 1);
   (0x2110, 0x2112, 1); (0x2115, 0x2115, 1); (0x2119, 0x211D, 1);
   (0x2124, 0x212A, 2); (0x212B, 0x212D, 1); (0x2130, 0x2133, 1);
   (0x213E, 0x213F, 1); (0x2145, 0x2145, 1); (0x2160, 0x216F, 1);
   (0x2183, 0x2183, 1); (0x24B6, 0x24CF, 1); (0x2C00, 0x2C2F, 1);
   (0x2C60, 0x2C62, 2); (0x2C63, 0x2C64, 1); (0x2C67, 0x2C6D, 2);
   (0x2C6E, 0x2C70, 1); (0x2C72, 0x2C72, 1); (0x2C75, 0x2C75, 1);
   (0x2C7E, 0x2C80, 1); (0x2C82, 0x2CE2, 2); (0x2CEB, 0x2CED, 2);
   (0x2CF2, 0x2CF2, 1); (0xA640, 0xA66C, 2); (0xA680, 0xA69A, 2);
   (0xA722, 0xA72E, 2); (0xA732, 0xA76E, 2); (0xA779, 0xA77D, 2);
   (0xA77E, 0xA786, 2); (0xA78B, 0xA78D, 2); (0xA790, 0xA792, 2);
   (0xA796, 0xA7AA, 2); (0xA7AB, 0xA7AE, 1); (0xA7B0, 0xA7B4, 1);
   (0xA7B6, 0xA7C4, 2); (0xA7C5, 0xA7C7, 1); (0xA7C9, 0xA7C9, 1);
   (0xA7D0, 0xA7D0, 1); (0xA7D6, 0xA7D8, 2); (0xA7F5, 0xA7F5, 1);
   (0xFF21, 0xFF3A, 1); (0x10400, 0x10427, 1); (0x104B0, 0x104D3, 1);
   (0x10570, 0x1057A, 1); (0x1057C, 0x1058A, 1); (0x1058C, 0x10592, 1);
   (0x10594, 0x10595, 1); (0x10C80, 0x10CB2, 1); (0x118A0, 0x118BF, 1);
   (0x16E40, 0x16E5F, 1); (0x1D400, 0x1D419, 1); (0x1D434, 0x1D44D, 1);
   (0x1D468, 0x1D481, 1); (0x1D49C, 0x1D49E, 2); (0x1D49F, 0x1D49F, 1);
   (0x1D4A2, 0x1D4A2, 1); (0x1D4A5, 0x1D4A6, 1); (0x1D4A9, 0x1D4AC, 1);
   (0x1D4AE, 0x1D4B5, 1); (0x1D4D0, 0x1D4E9, 1); (0x1D504, 0x1D505, 1);
   (0x1D507, 0x1D50A, 1); (0x1D50D, 0x1D514, 1); (0x1D516, 0x1D51C, 1);
   (0x1D538, 0x1D539, 1); (0x1D53B, 0x1D53E, 1); (0x1D540, 0x1D544, 1);
   (0x1D546, 0x1D546, 1); (0x1D54A, 0x1D550, 1); (0x1D56C, 0x1D585, 1);
   (0x1D5A0, 0x1D5B9, 1); (0x1D5D4, 0x1D5ED, 1); (0x1D608, 0x1D621, 1);
   (0x1D63C, 0x1D655, 1); (0x1D670, 0x1D689, 1); (0x1D6A8, 0x1D6C0, 1);
   (0x1D6E2, 0x1D6FA, 1); (0x1D71C, 0x1D734, 1); (0x1D756, 0x1D76E, 1);
   (0x1D790, 0x1D7A8, 1); (0x1D7CA, 0x1D7CA, 1); (0x1E900, 0x1E921, 1);
   (0x1F130, 0x1F149, 1); (0x1F150, 0x1F169, 1); (0x1F170, 0x1F189, 1)
  ]%N.

Definition is_upper (c : N) : bool := in_stepped_ranges c upper_ranges.

(** The cased code points (property Cased), as ranges (first, last). *)
Definition cased_ranges : list (N * N) :=
  [
   (0x41, 0x5A); (0x61, 0x7A); (0xAA, 0xAA); (0xB5, 0xB5); (0xBA, 0xBA);
   (0xC0, 0xD6); (0xD8, 0xF6); (0xF8, 0x1BA); (0x1BC, 0x1BF); (0x1C4, 0x293);
   (0x295, 0x2B8); (0x2C0, 0x2C1); (0x2E0, 0x2E4); (0x345, 0x345);
   (0x370, 0x373); (0x376, 0x377); (0x37A, 0x37D); (0x37F, 0x37F);
   (0x386, 0x386); (0x388, 0x38A); (0x38C, 0x38C); (0x38E, 0x3A1);
   (0x3A3, 0x3F5); (0x3F7, 0x481); (0x48A, 0x52F); (0x531, 0x556);
   (0x560, 0x588); (0x10A0, 0x10C5); (0x10C7, 0x10C7); (0x10CD, 0x10CD);
   (0x10D0, 0x10FA); (0x10FD, 0x10FF); (0x13A0, 0x13F5); (0x13F8, 0x13FD);
   (0x1C80, 0x1C88); (0x1C90, 0x1CBA); (0x1CBD, 0x1CBF); (0x1D00, 0x1DBF);
   (0x1E00, 0x1F15); (0x1F18, 0x1F1D); (0x1F20, 0x1F45); (0x1F48, 0x1F4D);
   (0x1F50, 0x1F57); (0x1F59, 0x1F59); (0x1F5B, 0x1F5B); (0x1F5D, 0x1F5D);
   (0x1F5F, 0x1F7D); (0x1F80, 0x1FB4); (0x1FB6, 0x1FBC); (0x1FBE, 0x1FBE);
   (0x1FC2, 0x1FC4); (0x1FC6, 0x1FCC); (0x1FD0, 0x1FD3); (0x1FD6, 0x1FDB);
   (0x1FE0, 0x1FEC); (0x1FF2, 0x1FF4); (0x1FF6, 0x1FFC); (0x2071, 0x2071);
   (0x207F, 0x207F); (0x2090, 0x209C); (0x2102, 0x2102); (0x2107, 0x2107);
   (0x210A, 0x2113); (0x2115, 0x2115); (0x2119, 0x211D); (0x2124, 0x2124);
   (0x2126, 0x2126); (0x2128, 0x2128); (0x212A, 0x212D); (0x212F, 0x2134);
   (0x2139, 0x2139); (0x213C, 0x213F); (0x2145, 0x2149); (0x214E, 0x214E);
   (0x2160, 0x217F); (0x2183, 0x2184); (0x24B6, 0x24E9); (0x2C00, 0x2CE4);
   (0x2CEB, 0x2CEE); (0x2CF2, 0x2CF3); (0x2D00, 0x2D25); (0x2D27, 0x2D27);
   (0x2D2D, 0x2D2D); (0xA640, 0xA66D); (0xA680, 0xA69D); (0xA722, 0xA787);
   (0xA78B, 0xA78E); (0xA790, 0xA7CA); (0xA7D0, 0xA7D1); (0xA7D3, 0xA7D3);
   (0xA7D5, 0xA7D9); (0xA7F5, 0xA7F6); (0xA7F8, 0xA7FA); (0xAB30, 0xAB5A);
   (0xAB5C, 0xAB68); (0xAB70, 0xABBF); (0xFB00, 0xFB06); (0xFB13, 0xFB17);
   (0xFF21, 0xFF3A); (0xFF41, 0xFF5A); (0x10400, 0x1044F);
   (0x104B0, 0x104D3); (0x104D8, 0x104FB); (0x10570, 0x1057A);
   (0x1057C, 0x1058A); (0x1058C, 0x10592); (0x10594, 0x10595);
   (0x10597, 0x105A1); (0x105A3, 0x105B1); (0x105B3, 0x105B9);
   (0x105BB, 0x105BC); (0x10780, 0x10780); (0x10783, 0x10785);
   (0x10787, 0x107B0); (0x107B2, 0x107BA); (0x10C80, 0x10CB2);
   (0x10CC0, 0x10CF2); (0x118A0, 0x118DF); (0x16E40, 0x16E7F);
   (0x1D400, 0x1D454); (0x1D456, 0x1D49C); (0x1D49E, 0x1D49F);
   (0x1D4A2, 0x1D4A2); (0x1D4A5, 0x1D4A6); (0x1D4A9, 0x1D4AC);
   (0x1D4AE, 0x1D4B9); (0x1D4BB, 0x1D4BB); (0x1D4BD, 0x1D4C3);
   (0x1D4C5, 0x1D505); (0x1D507, 0x1D50A); (0x1D50D, 0x1D514);
   (0x1D516, 0x1D51C); (0x1D51E, 0x1D539); (0x1D53B, 0x1D53E);
   (0x1D540, 0x1D544); (0x1D546, 0x1D546); (0x1D54A, 0x1D550);
   (0x1D552, 0x1D6A5); (0x1D6A8, 0x1D6C0); (0x1D6C2, 0x1D6DA);
   (0x1D6DC, 0x1D6FA); (0x1D6FC, 0x1D714); (0x1D716, 0x1D734);
   (0x1D736, 0x1D74E); (0x1D750, 0x1D76E); (0x1D770, 0x1D788);
   (0x1D78A, 0x1D7A8); (0x1D7AA, 0x1D7C2); (0x1D7C4, 0x1D7CB);
   (0x1DF00, 0x1DF09); (0x1DF0B, 0x1DF1E); (0x1E900, 0x1E943);
   (0x1F130, 0x1F149); (0x1F150, 0x1F169); (0x1F170, 0x1F189)
  ]%N.

Definition is_cased (c : N) : bool := in_ranges c cased_ranges.

(** The case-ignorable code points (property Case_Ignorable). *)
Definition case_ignorable_ranges : list (N * N) :=
  [
   (0x27, 0x27); (0x2E, 0x2E); (0x3A, 0x3A); (0x5E, 0x5E); (0x60, 0x60);
   (0xA8, 0xA8); (0xAD, 0xAD); (0xAF, 0xAF); (0xB4, 0xB4); (0xB7, 0xB8);
   (0x2B0, 0x36F); (0x374, 0x375); (0x37A, 0x37A); (0x384, 0x385);
   (0x387, 0x387); (0x483, 0x489); (0x559, 0x559); (0x55F, 0x55F);
   (0x591, 0x5BD); (0x5BF, 0x5BF); (0x5C1, 0x5C2); (0x5C4, 0x5C5);
   (0x5C7, 0x5C7); (0x5F4, 0x5F4); (0x600, 0x605); (0x610, 0x61A);
   (0x61C, 0x61C); (0x640, 0x640); (0x64B, 0x65F); (0x670, 0x670);
   (0x6D6, 0x6DD); (0x6DF, 0x6E8); (0x6EA, 0x6ED); (0x70F, 0x70F);
   (0x711, 0x711); (0x730, 0x74A); (0x7A6, 0x7B0); (0x7EB, 0x7F5);
   (0x7FA, 0x7FA); (0x7FD, 0x7FD); (0x816, 0x82D); (0x859, 0x85B);
   (0x888, 0x888); (0x890, 0x891); (0x898, 0x89F); (0x8C9, 0x902);
   (0x93A, 0x93A); (0x93C, 0x93C); (0x941, 0x948); (0x94D, 0x94D);
   (0x951, 0x957); (0x962, 0x963); (0x971, 0x971); (0x981, 0x981);
   (0x9BC, 0x9BC); (0x9C1, 0x9C4); (0x9CD, 0x9CD); (0x9E2, 0x9E3);
   (0x9FE, 0x9FE); (0xA01, 0xA02); (0xA3C, 0xA3C); (0xA41, 0xA42);
   (0xA47, 0xA48); (0xA4B, 0xA4D); (0xA51, 0xA51); (0xA70, 0xA71);
   (0xA75, 0xA75); (0xA81, 0xA82); (0xABC, 0xABC); (0xAC1, 0xAC5);
   (0xAC7, 0xAC8); (0xACD, 0xACD); (0xAE2, 0xAE3); (0xAFA, 0xAFF);
   (0xB01, 0xB01); (0xB3C, 0xB3C); (0xB3F, 0xB3F); (0xB41, 0xB44);
   (0xB4D, 0xB4D); (0xB55, 0xB56); (0xB62, 0xB63); (0xB82, 0xB82);
   (0xBC0, 0xBC0); (0xBCD, 0xBCD); (0xC00, 0xC00); (0xC04, 0xC04);
   (0xC3C, 0xC3C); (0xC3E, 0xC40); (0xC46, 0xC48); (0xC4A, 0xC4D);
   (0xC55, 0xC56); (0xC62, 0xC63); (0xC81, 0xC81); (0xCBC, 0xCBC);
   (0xCBF, 0xCBF); (0xCC6, 0xCC6); (0xCCC, 0xCCD); (0xCE2, 0xCE3);
   (0xD00, 0xD01); (0xD3B, 0xD3C); (0xD41, 0xD44); (0xD4D, 0xD4D);
   (0xD62, 0xD63); (0xD81, 0xD81); (0xDCA, 0xDCA); (0xDD2, 0xDD4);
   (0xDD6, 0xDD6); (0xE31, 0xE31); (0xE34, 0xE3A); (0xE46, 0xE4E);
   (0xEB1, 0xEB1); (0xEB4, 0xEBC); (0xEC6, 0xEC6); (0xEC8, 0xECD);
   (0xF18, 0xF19); (0xF35, 0xF35); (0xF37, 0xF37); (0xF39, 0xF39);
   (0xF71, 0xF7E); (0xF80, 0xF84); (0xF86, 0xF87); (0xF8D, 0xF97);
   (0xF99, 0xFBC); (0xFC6, 0xFC6); (0x102D, 0x1030); (0x1032, 0x1037);
   (0x1039, 0x103A); (0x103D, 0x103E); (0x1058, 0x1059); (0x105E, 0x1060);
   (0x1071, 0x1074); (0x1082, 0x1082); (0x1085, 0x1086); (0x108D, 0x108D);
   (0x109D, 0x109D); (0x10FC, 0x10FC); (0x135D, 0x135F); (0x1712, 0x1714);
   (0x1732, 0x1733); (0x1752, 0x1753); (0x1772, 0x1773); (0x17B4, 0x17B5);
   (0x17B7, 0x17BD); (0x17C6, 0x17C6); (0x17C9, 0x17D3); (0x17D7, 0x17D7);
   (0x17DD, 0x17DD); (0x180B, 0x180F); (0x1843, 0x1843); (0x1885, 0x1886);
   (0x18A9, 0x18A9); (0x1920, 0x1922); (0x1927, 0x1928); (0x1932, 0x1932);
   (0x1939, 0x193B); (0x1A17, 0x1A18); (0x1A1B, 0x1A1B); (0x1A56, 0x1A56);
   (0x1A58, 0x1A5E); (0x1A60, 0x1A60); (0x1A62, 0x1A62); (0x1A65, 0x1A6C);
   (0x1A73, 0x1A7C); (0x1A7F, 0x1A7F); (0x1AA7, 0x1AA7); (0x1AB0, 0x1ACE);
   (0x1B00, 0x1B03); (0x1B34, 0x1B34); (0x1B36, 0x1B3A); (0x1B3C, 0x1B3C);
   (0x1B42, 0x1B42); (0x1B6B, 0x1B73); (0x1B80, 0x1B81); (0x1BA2, 0x1BA5);
   (0x1BA8, 0x1BA9); (0x1BAB, 0x1BAD); (0x1BE6, 0x1BE6); (0x1BE8, 0x1BE9);
   (0x1BED, 0x1BED); (0x1BEF, 0x1BF1); (0x1C2C, 0x1C33); (0x1C36, 0x1C37);
   (0x1C78, 0x1C7D); (0x1CD0, 0x1CD2); (0x1CD4, 0x1CE0); (0x1CE2, 0x1CE8);
   (0x1CED, 0x1CED); (0x1CF4, 0x1CF4); (0x1CF8, 0x1CF9); (0x1D2C, 0x1D6A);
   (0x1D78, 0x1D78); (0x1D9B, 0x1DFF); (0x1FBD, 0x1FBD); (0x1FBF, 0x1FC1);
   (0x1FCD, 0x1FCF); (0x1FDD, 0x1FDF); (0x1FED, 0x1FEF); (0x1FFD, 0x1FFE);
   (0x200B, 0x200F); (0x2018, 0x2019); (0x2024, 0x2024); (0x2027, 0x2027);
   (0x202A, 0x202E); (0x2060, 0x2064); (0x2066, 0x206F); (0x2071, 0x2071);
   (0x207F, 0x207F); (0x2090, 0x209C); (0x20D0, 0x20F0); (0x2C7C, 0x2C7D);
   (0x2CEF, 0x2CF1); (0x2D6F, 0x2D6F); (0x2D7F, 0x2D7F); (0x2DE0, 0x2DFF);
   (0x2E2F, 0x2E2F); (0x3005, 0x3005); (0x302A, 0x302D); (0x3031, 0x3035);
   (0x303B, 0x303B); (0x3099, 0x309E); (0x30FC, 0x30FE); (0xA015, 0xA015);
   (0xA4F8, 0xA4FD); (0xA60C, 0xA60C); (0xA66F, 0xA672); (0xA674, 0xA67D);
   (0xA67F, 0xA67F); (0xA69C, 0xA69F); (0xA6F0, 0xA6F1); (0xA700, 0xA721);
   (0xA770, 0xA770); (0xA788, 0xA78A); (0xA7F2, 0xA7F4); (0xA7F8, 0xA7F9);
   (0xA802, 0xA802); (0xA806, 0xA806); (0xA80B, 0xA80B); (0xA825, 0xA826);
   (0xA82C, 0xA82C); (0xA8C4, 0xA8C5); (0xA8E0, 0xA8F1); (0xA8FF, 0xA8FF);
   (0xA926, 0xA92D); (0xA947, 0xA951); (0xA980, 0xA982); (0xA9B3, 0xA9B3);
   (0xA9B6, 0xA9B9); (0xA9BC, 0xA9BD); (0xA9CF, 0xA9CF); (0xA9E5, 0xA9E6);
   (0xAA29, 0xAA2E); (0xAA31, 0xAA32); (0xAA35, 0xAA36); (0xAA43, 0xAA43);
   (0xAA4C, 0xAA4C); (0xAA70, 0xAA70); (0xAA7C, 0xAA7C); (0xAAB0, 0xAAB0);
   (0xAAB2, 0xAAB4); (0xAAB7, 0xAAB8); (0xAABE, 0xAABF); (0xAAC1, 0xAAC1);
   (0xAADD, 0xAADD); (0xAAEC, 0xAAED); (0xAAF3, 0xAAF4); (0xAAF6, 0xAAF6);
   (0xAB5B, 0xAB5F); (0xAB69, 0xAB6B); (0xABE5, 0xABE5); (0xABE8, 0xABE8);
   (0xABED, 0xABED); (0xFB1E, 0xFB1E); (0xFBB2, 0xFBC2); (0xFE00, 0xFE0F);
   (0xFE13, 0xFE13); (0xFE20, 0xFE2F); (0xFE52, 0xFE52); (0xFE55, 0xFE55);
   (0xFEFF, 0xFEFF); (0xFF07, 0xFF07); (0xFF0E, 0xFF0E); (0xFF1A, 0xFF1A);
   (0xFF3E, 0xFF3E); (0xFF40, 0xFF40); (0xFF70, 0xFF70); (0xFF9E, 0xFF9F);
   (0xFFE3, 0xFFE3); (0xFFF9, 0xFFFB); (0x101FD, 0x101FD);
   (0x102E0, 0x102E0); (0x10376, 0x1037A); (0x10780, 0x10785);
   (0x10787, 0x107B0); (0x107B2, 0x107BA); (0x10A01, 0x10A03);
   (0x10A05, 0x10A06); (0x10A0C, 0x10A0F); (0x10A38, 0x10A3A);
   (0x10A3F, 0x10A3F); (0x10AE5, 0x10AE6); (0x10D24, 0x10D27);
   (0x10EAB, 0x10EAC); (0x10F46, 0x10F50); (0x10F82, 0x10F85);
   (0x11001, 0x11001); (0x11038, 0x11046); (0x11070, 0x11070);
   (0x11073, 0x11074); (0x1107F, 0x11081); (0x110B3, 0x110B6);
   (0x110B9, 0x110BA); (0x110BD, 0x110BD); (0x110C2, 0x110C2);
   (0x110CD, 0x110CD); (0x11100, 0x11102); (0x11127, 0x1112B);
   (0x1112D, 0x11134); (0x11173, 0x11173); (0x11180, 0x11181);
   (0x111B6, 0x111BE); (0x111C9, 0x111CC); (0x111CF, 0x111CF);
   (0x1122F, 0x11231); (0x11234, 0x11234); (0x11236, 0x11237);
   (0x1123E, 0x1123E); (0x112DF, 0x112DF); (0x112E3, 0x112EA);
   (0x11300, 0x11301); (0x1133B, 0x1133C); (0x11340, 0x11340);
   (0x11366, 0x1136C); (0x11370, 0x11374); (0x11438, 0x1143F);
   (0x11442, 0x11444); (0x11446, 0x11446); (0x1145E, 0x1145E);
   (0x114B3, 0x114B8); (0x114BA, 0x114BA); (0x114BF, 0x114C0);
   (0x114C2, 0x114C3); (0x115B2, 0x115B5); (0x115BC, 0x115BD);
   (0x115BF, 0x115C0); (0x115DC, 0x115DD); (0x11633, 0x1163A);
   (0x1163D, 0x1163D); (0x1163F, 0x11640); (0x116AB, 0x116AB);
   (0x116AD, 0x116AD); (0x116B0, 0x116B5); (0x116B7, 0x116B7);
   (0x1171D, 0x1171F); (0x11722, 0x11725); (0x11727, 0x1172B);
   (0x1182F, 0x11837); (0x11839, 0x1183A); (0x1193B, 0x1193C);
   (0x1193E, 0x1193E); (0x11943, 0x11943); (0x119D4, 0x119D7);
   (0x119DA, 0x119DB); (0x119E0, 0x119E0); (0x11A01, 0x11A0A);
   (0x11A33, 0x11A38); (0x11A3B, 0x11A3E); (0x11A47, 0x11A47);
   (0x11A51, 0x11A56); (0x11A59, 0x11A5B); (0x11A8A, 0x11A96);
   (0x11A98, 0x11A99); (0x11C30, 0x11C36); (0x11C38, 0x11C3D);
   (0x11C3F, 0x11C3F); (0x11C92, 0x11CA7); (0x11CAA, 0x11CB0);
   (0x11CB2, 0x11CB3); (0x11CB5, 0x11CB6); (0x11D31, 0x11D36);
   (0x11D3A, 0x11D3A); (0x11D3C, 0x11D3D); (0x11D3F, 0x11D45);
   (0x11D47, 0x11D47); (0x11D90, 0x11D91); (0x11D95, 0x11D95);
   (0x11D97, 0x11D97); (0x11EF3, 0x11EF4); (0x13430, 0x13438);
   (0x16AF0, 0x16AF4); (0x16B30, 0x16B36); (0x16B40, 0x16B43);
   (0x16F4F, 0x16F4F); (0x16F8F, 0x16F9F); (0x16FE0, 0x16FE1);
   (0x16FE3, 0x16FE4); (0x1AFF0, 0x1AFF3); (0x1AFF5, 0x1AFFB);
   (0x1AFFD, 0x1AFFE); (0x1BC9D, 0x1BC9E); (0x1BCA0, 0x1BCA3);
   (0x1CF00, 0x1CF2D); (0x1CF30, 0x1CF46); (0x1D167, 0x1D169);
   (0x1D173, 0x1D182); (0x1D185, 0x1D18B); (0x1D1AA, 0x1D1AD);
   (0x1D242, 0x1D244); (0x1DA00, 0x1DA36); (0x1DA3B, 0x1DA6C);
   (0x1DA75, 0x1DA75); (0x1DA84, 0x1DA84); (0x1DA9B, 0x1DA9F);
   (0x1DAA1, 0x1DAAF); (0x1E000, 0x1E006); (0x1E008, 0x1E018);
   (0x1E01B, 0x1E021); (0x1E023, 0x1E024); (0x1E026, 0x1E02A);
   (0x1E130, 0x1E13D); (0x1E2AE, 0x1E2AE); (0x1E2EC, 0x1E2EF);
   (0x1E8D0, 0x1E8D6); (0x1E944, 0x1E94B); (0x1F3FB, 0x1F3FF);
   (0xE0001, 0xE0001); (0xE0020, 0xE007F); (0xE0100, 0xE01EF)
  ]%N.

Definition is_case_ignorable (c : N) : bool :=
  in_ranges c case_ignorable_ranges.

(** *** [str.lower] *)

(** The first code point of [text] that is not case-ignorable. *)
Fixpoint skip_case_ignorable (text : str) : option N :=
  match text with
  | [] => None
  | c :: rest =>
      if is_case_ignorable c then skip_case_ignorable rest else Some c
  end.

(** The lowercase of a capital sigma U+03A3 between the code points
    [before] (the nearest first) and [after]: the final form U+03C2 when
    a cased code point precedes it and none follows, case-ignorable code
    points skipped on both sides, and U+03C3 otherwise. *)
Definition handle_capital_sigma (before after : str) : N :=
  let final_sigma :=
    match skip_case_ignorable before with
    | Some c => is_cased c
    | None => false
    end in
  let final_sigma :=
    final_sigma &&
    match skip_case_ignorable after with
    | Some c => negb (is_cased c)
    | None => true
    end in
  if final_sigma then 0x3C2%N else 0x3C3%N.

(** [text.lower()], code point by code point; [before] holds the code
    points already passed, the nearest first. *)
Fixpoint lower_go (before text : str) : str :=
  match text with
  | [] => []
  | c :: rest =>
      ((if (c =? 0x3A3)%N then [handle_capital_sigma before rest]
        else to_lower_full c)
       ++ lower_go (c :: before) rest)%list
  end.

Definition lower (text : str) : str := lower_go [] text.

(** The new value of the [text] field of the batch. *)
Definition remove_special_characters (text : str) : str :=
  lower (re_sub_ignore text).

(** A code point that [lower] leaves as it is wherever it stands: it is
    not the capital sigma and its lowercase mapping is itself. *)
Definition unchanged_by_lower (c : N) : bool :=
  negb (c =? 0x3A3)%N && bool_decide (to_lower_full c = [c]).

(** The capitals whose small letter is 32 places further: Basic Latin,
    Latin-1, Greek (the sigma apart) and Cyrillic; and the Cyrillic
    capitals whose small letter is 80 places further. *)
Definition capitals_32 : list N :=
  (code_range 0x41 0x5A ++ code_range 0xC0 0xD6 ++ code_range 0xD8 0xDE
   ++ code_range 0x391 0x3A1 ++ code_range 0x3A4 0x3AB
   ++ code_range 0x410 0x42F)%list.

Definition capitals_80 : list N := code_range 0x400 0x40F.

(** The code points for which [str.isspace] holds. *)
Definition whitespace : list N :=
  [0x9; 0xA; 0xB; 0xC; 0xD; 0x1C; 0x1D; 0x1E; 0x1F; 0x20; 0x85; 0xA0;
   0x1680; 0x2000; 0x2001; 0x2002; 0x2003; 0x2004; 0x2005; 0x2006; 0x2007;
   0x2008; 0x2009; 0x200A; 0x2028; 0x2029; 0x202F; 0x205F; 0x3000]%N.

End Unicode.

(** ** Characters below 256 *)

Definition code (c : ascii) : nat := nat_of_ascii c.

(** The character class of [chars_to_ignore_regex]: eight escaped literals
    between square brackets, the comma, the question mark, the full stop,
    the exclamation mark, the hyphen, the semicolon, the colon and the
    double quote (code 34). *)
Definition chars_to_ignore : list ascii :=
  [","; "?"; "."; "!"; "-"; ";"; ":"; "034"]%char.

Definition is_ignored (c : ascii) : bool :=
  bool_decide (c ∈ chars_to_ignore).

(** Characters that [str.isupper] accepts among the code points below 256:
    [A]-[Z] and the accented capitals U+00C0-U+00DE without the
    multiplication sign U+00D7 ([latin1_is_upper] compares it with
    [Unicode.is_upper]). *)
Definition is_upper (c : ascii) : bool :=
  let n := code c in
  ((65 <=? n)%nat && (n <=? 90)%nat) ||
  ((192 <=? n)%nat && (n <=? 222)%nat && negb (n =? 215)%nat).

(** [str.lower] on one code point below 256: every capital has its small
    letter 32 places further, all other characters are their own image
    ([latin1_to_lower_full] compares it with [Unicode.to_lower_full]). *)
Definition lower_char (c : ascii) : ascii :=
  if is_upper c then ascii_of_nat (code c + 32) else c.

(** ** [remove_special_characters] *)

(** [re.sub(chars_to_ignore_regex, '', text)]: every match of the character
    class is replaced by the empty string. *)
Fixpoint re_sub_ignore (text : string) : string :=
  match text with
  | EmptyString => EmptyString
  | String c rest =>
      if is_ignored c then re_sub_ignore rest
      else String c (re_sub_ignore rest)
  end.

(** [text.lower()] for a [text] of code points below 256, where no code
    point is a capital sigma and every image is one code point. *)
Fixpoint lower (text : string) : string :=
  match text with
  | EmptyString => EmptyString
  | String c rest => String (lower_char c) (lower rest)
  end.

(** The new value of the [text] field of the batch, for a [text] of code
    points below 256. *)
Definition remove_special_characters (text : string) : string :=
  lower (re_sub_ignore text).

(** The normalizer as the specification words it, on the list of
    characters: keep the characters outside the ignore set, in order, and
    fold the case of each. *)
Definition normalize_spec (text : list ascii) : list ascii :=
  lower_char <$> filter (λ c, c ∉ chars_to_ignore) text.

(** ** The vocabulary cell *)

(** The dataset is a [DatasetDict] with a [train] and a [test] split; only
    the [text] column matters here, so a split is its list of transcripts. *)
Record DatasetDict := { train : list string; test : list string }.

(** [sep.join(items)] *)
Fixpoint join (sep : string) (items : list string) : string :=
  match items with
  | [] => ""
  | x :: rest =>
      match rest with
      | [] => x
      | _ :: _ => x +:+ sep +:+ join sep rest
      end
  end.

(** [set(text)] for a string: the set of its characters. *)
Definition str_set (text : string) : gset ascii :=
  list_to_set (String.list_ascii_of_string text).

(** [list(s)] for a set [s]: Python leaves the iteration order of a set
    open (it depends on the hashes and on the history of the table), so
    the result is any list without repetition that holds the elements of
    the set. *)
Definition list_of_set (s : gset ascii) (l : list ascii) : Prop :=
  NoDup l ∧ list_to_set l = s.

#[global] Instance list_of_set_dec s l : Decision (list_of_set s l).
Proof. unfold list_of_set. apply _. Defined.

(** What [extract_characters] returns for one batch: the members of its
    two singleton columns. *)
Record extracted := { vocab : list ascii; texts : string }.

(** [extract_characters(batch)]; [dataset.map] calls it with [batched=True]
    and [batch_size=-1], once per split, on all the transcripts of the
    split: [texts] is their join and [vocab] a list of its set of
    characters. *)
Definition extract_characters (batch : list string) (out : extracted) : Prop :=
  texts out = join " " batch ∧ list_of_set (str_set (texts out)) (vocab out).

(** [dataset.map(extract_characters, batched=True, batch_size=-1, ...)] on
    one split.  A split without rows is returned as it is: the function is
    not called, and the split gets no [vocab] and no [texts] column
    ([None]).  Otherwise the function is called once, on all the
    transcripts of the split. *)
Definition map_extract_characters (split : list string)
    (out : option extracted) : Prop :=
  match split with
  | [] => out = None
  | _ :: _ => ∃ e, extract_characters split e ∧ out = Some e
  end.

(** [vocab_list]: the list of the union of the two splits' vocabularies,
    when both splits have their [vocab] column. *)
Definition vocab_list_of (dataset : DatasetDict) (vocab_list : list ascii) : Prop :=
  ∃ vtrain vtest,
    map_extract_characters (train dataset) (Some vtrain) ∧
    map_extract_characters (test dataset) (Some vtest) ∧
    list_of_set (list_to_set (vocab vtrain) ∪ list_to_set (vocab vtest))
                vocab_list.

(** [enumerate(l)] *)
Fixpoint enumerate_from {A} (start : nat) (l : list A) : list (nat * A) :=
  match l with
  | [] => []
  | x :: rest => (start, x) :: enumerate_from (S start) rest
  end.

Definition enumerate {A} (l : list A) : list (nat * A) := enumerate_from 0 l.

(** The key of a character in the dictionary: the one-character string. *)
Definition char_key (c : ascii) : string := String c EmptyString.

(** The comprehension [{v: k for k, v in kvs}]: the pairs are stored from
    left to right, a later pair replaces an earlier one with the same key. *)
Definition dict_comprehension (kvs : list (nat * ascii)) : gmap string nat :=
  fold_left (λ d kv, <[char_key kv.2 := kv.1]> d) kvs ∅.

(** Exceptions of the cell, and results that may raise one: the [KeyError]
    of a dictionary for a key it does not hold, and the [KeyError] of a
    split of the dataset for a column it does not have (its message names
    the column). *)
Inductive exception :=
  | KeyError (key : string)
  | MissingColumn (column : string).

Definition result (A : Type) : Type := exception + A.

#[global] Instance exception_eq_dec : EqDecision exception.
Proof. solve_decision. Defined.

#[global] Instance result_ret : MRet result := λ A x, inr x.
#[global] Instance result_bind : MBind result := λ A B f m,
  match m with
  | inl e => inl e
  | inr x => f x
  end.

(** [d[key]] *)
Definition getitem (d : gmap string nat) (key : string) : result nat :=
  match d !! key with
  | Some v => inr v
  | None => inl (KeyError key)
  end.

(** [del d[key]] *)
Definition delitem (d : gmap string nat) (key : string)
  : result (gmap string nat) :=
  match d !! key with
  | Some _ => inr (delete key d)
  | None => inl (KeyError key)
  end.

(** The statements of the cell from the comprehension to the padding
    token, on a given [vocab_list]. *)
Definition vocab_dict (vocab_list : list ascii) : result (gmap string nat) :=
  let d := dict_comprehension (enumerate vocab_list) in
  i ← getitem d " ";
  let d := <["|" := i]> d in
  d ← delitem d " ";
  let d := <["[UNK]" := size d]> d in
  let d := <["[PAD]" := size d]> d in
  mret d.

(** [vocabs[split]["vocab"][0]] *)
Definition getitem_vocab (v : option extracted) : result (list ascii) :=
  match v with
  | Some e => inr (vocab e)
  | None => inl (MissingColumn "vocab")
  end.

(** The whole cell: both splits are mapped; the [vocab] column of the
    train split and then that of the test split are read, and a split
    without the column ends the cell; otherwise a run picks the iteration
    orders of the sets and ends in an exception of [vocab_dict] or in the
    final dictionary. *)
Definition buildVocabulary (dataset : DatasetDict)
    (r : result (gmap string nat)) : Prop :=
  ∃ vtrain vtest,
    map_extract_characters (train dataset) vtrain ∧
    map_extract_characters (test dataset) vtest ∧
    match getitem_vocab vtrain, getitem_vocab vtest with
    | inl e, _ => r = inl e
    | inr _, inl e => r = inl e
    | inr a, inr b =>
        ∃ vocab_list,
          list_of_set (list_to_set a ∪ list_to_set b) vocab_list ∧
          r = vocab_dict vocab_list
    end.

(** A run with the iteration order of sets fixed by [iter]. *)
Definition buildVocabulary_with (iter : gset ascii → list ascii)
    (dataset : DatasetDict) : result (gmap string nat) :=
  match train dataset, test dataset with
  | [], _ | _, [] => inl (MissingColumn "vocab")
  | _ :: _, _ :: _ =>
      let vtrain := iter (str_set (join " " (train dataset))) in
      let vtest := iter (str_set (join " " (test dataset))) in
      vocab_dict (iter (list_to_set vtrain ∪ list_to_set vtest))
  end.

(** Both splits have rows. *)
Definition nonempty_splits (dataset : DatasetDict) : Prop :=
  train dataset ≠ [] ∧ test dataset ≠ [].

#[global] Instance nonempty_splits_dec dataset : Decision (nonempty_splits dataset).
Proof. unfold nonempty_splits. apply _. Defined.

(** The transcripts of both splits and the characters that occur in them. *)
Definition transcripts (dataset : DatasetDict) : list string :=
  train dataset ++ test dataset.

Definition corpus_chars (dataset : DatasetDict) : gset ascii :=
  ⋃ (str_set <$> transcripts dataset).

(** ** Properties of a vocabulary mapping *)

Definition injective (m : gmap string nat) : Prop :=
  ∀ k1 k2 i, m !! k1 = Some i → m !! k2 = Some i → k1 = k2.

Definition dense (m : gmap string nat) : Prop :=
  ∀ i, i < size m ↔ ∃ k, m !! k = Some i.

(** ** Auxiliary definitions *)

(** The characters that a run enumerates: the union of the two splits'
    character sets. *)
Definition run_chars (dataset : DatasetDict) : gset ascii :=
  str_set (join " " (train dataset)) ∪ str_set (join " " (test dataset)).

(** The two halves of [vocab_dict] after the lookup of the space: the
    dictionary once the delimiter has taken the index [j] of the space and
    the space key is deleted, and the two reserved tokens on top of a
    dictionary [d]. *)
Definition renamed (l : list ascii) (j : nat) : gmap string nat :=
  delete " " (<["|" := j]> (dict_comprehension (enumerate l))).

Definition with_reserved (d : gmap string nat) : gmap string nat :=
  <["[PAD]" := S (size d)]> (<["[UNK]" := size d]> d).

(** ** Corpora and mappings of the examples *)

(** The example corpus of the specification, one transcript per split, and
    the final dictionary of the run that enumerates a, space, b. *)
Definition example_corpus : list string := ["ab ba"; "ba ab"].

Definition example_dataset : DatasetDict :=
  {| train := ["ab ba"]; test := ["ba ab"] |}.

Definition example_vocab : gmap string nat :=
  list_to_map [("a", 0); ("|", 1); ("b", 2); ("[UNK]", 3); ("[PAD]", 4)].

(** Two one-word transcripts, one per split. *)
Definition spaceless_dataset : DatasetDict :=
  {| train := ["hello"]; test := ["world"] |}.

Definition two_singleton_splits : DatasetDict :=
  {| train := ["a"]; test := ["b"] |}.

(** Two transcripts in the train split, in both orders. *)
Definition two_in_train : DatasetDict :=
  {| train := ["a"; "b"]; test := ["c"] |}.

Definition two_in_train_swapped : DatasetDict :=
  {| train := ["b"; "a"]; test := ["c"] |}.

Definition vocab_a_first : gmap string nat :=
  list_to_map [("a", 0); ("|", 1); ("b", 2); ("c", 3); ("[UNK]", 4); ("[PAD]", 5)].

Definition vocab_b_first : gmap string nat :=
  list_to_map [("b", 0); ("|", 1); ("a", 2); ("c", 3); ("[UNK]", 4); ("[PAD]", 5)].

(** No transcript at all, no transcript in the test split, and empty
    transcripts only. *)
Definition no_dataset : DatasetDict := {| train := []; test := [] |}.

Definition empty_test_split : DatasetDict := {| train := ["a"]; test := [] |}.

Definition blank_dataset : DatasetDict := {| train := [""; ""]; test := [""] |}.

Definition two_blank_splits : DatasetDict := {| train := [""]; test := [""] |}.

(** The dictionary that holds the delimiter and the two tokens only. *)
Definition reserved_only : gmap string nat :=
  list_to_map [("|", 0); ("[UNK]", 1); ("[PAD]", 2)].

(** A corpus with the vertical bar, which is not in the ignore set and so
    passes through normalisation, and the final dictionary of the run that
    enumerates a, space, bar, b, c. *)
Definition bar_dataset : DatasetDict := {| train := ["a | b"]; test := ["c"] |}.

Definition bar_vocab : gmap string nat :=
  list_to_map [("a", 0); ("|", 1); ("b", 3); ("c", 4); ("[UNK]", 4); ("[PAD]", 5)].

(** ** The rows of the dataset and the two row-wise [dataset.map] calls *)

(** A row of the dataset after [remove_columns]: the [file], the [audio]
    (a dictionary of [path], [array] and [sampling_rate]) and the [text].
    The samples of the waveform are of a type [sample] of which nothing is
    used. *)
Record Audio (sample : Type) := {
  audio_path : string;
  audio_array : list sample;
  audio_sampling_rate : Z
}.
Arguments audio_path {sample} _.
Arguments audio_array {sample} _.
Arguments audio_sampling_rate {sample} _.

Record Row (sample : Type) := {
  file : string;
  audio : Audio sample;
  text : string
}.
Arguments file {sample} _.
Arguments audio {sample} _.
Arguments text {sample} _.

(** A [DatasetDict] of rows of any kind, and [dataset.map(function)]
    without batching: the function is applied to each row of each split. *)
Record Splits (A : Type) := { train_split : list A; test_split : list A }.
Arguments train_split {A} _.
Arguments test_split {A} _.

Definition dataset_map {A B} (function : A → B) (dataset : Splits A) : Splits B :=
  {| train_split := function <$> train_split dataset;
     test_split := function <$> test_split dataset |}.

(** The [text] column of the two splits. *)
Definition text_column {sample} (dataset : Splits (Row sample)) : DatasetDict :=
  {| train := text <$> train_split dataset;
     test := text <$> test_split dataset |}.

(** [remove_special_characters(batch)] on a whole row: the [text] entry is
    replaced, the row is returned. *)
Definition remove_special_characters_batch {sample} (batch : Row sample)
  : Row sample :=
  {| file := file batch;
     audio := audio batch;
     text := remove_special_characters (text batch) |}.

(** A row after [extract_array_samplingrate] and the removal of the three
    original columns. *)
Record Prepared (sample : Type) := {
  speech : list sample;
  sampling_rate : Z;
  target_text : string
}.
Arguments speech {sample} _.
Arguments sampling_rate {sample} _.
Arguments target_text {sample} _.

(** [extract_array_samplingrate(batch)], mapped with [remove_columns] set
    to the original columns; [tolist()] keeps the samples and their order. *)
Definition extract_array_samplingrate {sample} (batch : Row sample)
  : Prepared sample :=
  {| speech := audio_array (audio batch);
     sampling_rate := audio_sampling_rate (audio batch);
     target_text := text batch |}.

(** The dataset as the notebook has it after both calls. *)
Definition prepare {sample} (dataset : Splits (Row sample))
  : Splits (Prepared sample) :=
  dataset_map extract_array_samplingrate
    (dataset_map remove_special_characters_batch dataset).

(** ** The cell that plays one audio file *)

Inductive index_exception := IndexError (key size : nat).

(** [rows[key]] for a split and a non-negative [key]. *)
Definition dataset_getitem {A} (rows : list A) (key : nat)
  : index_exception + A :=
  match rows !! key with
  | Some row => inr row
  | None => inl (IndexError key (length rows))
  end.

(** [random.randint(a, b)] returns an integer of the closed range from [a]
    to [b]. *)
Definition randint (a b rand_int : nat) : Prop := a ≤ rand_int ≤ b.

Section audio_cell.
Context {sample widget audio_exception : Type}.

(** [ipd.Audio(data=np.asarray(samples), autoplay=True, rate=16000)], the
    constructor of IPython's audio widget.  It is not the notebook's own:
    it is a parameter of the cell, free to return a widget or to raise on
    any samples. *)
Variable Audio : list sample → audio_exception + widget.

Inductive cell_exception :=
  | Lookup (e : index_exception)
  | FromAudio (e : audio_exception).

(** The cell once [rand_int] is drawn: the lines that it prints and the
    widget that it displays or the exception that ends it.  The [print]
    statement and the [ipd.Audio] call each look the row up. *)
Definition check_audio_cell (rows : list (Prepared sample)) (rand_int : nat)
  : list string * (cell_exception + widget) :=
  match dataset_getitem rows rand_int with
  | inl e => ([], inl (Lookup e))
  | inr row =>
      ([target_text row],
       match dataset_getitem rows rand_int with
       | inl e => inl (Lookup e)
       | inr row => match Audio (speech row) with
                    | inl e => inl (FromAudio e)
                    | inr w => inr w
                    end
       end)
  end.

End audio_cell.

(** ** Names and S3 locations *)

(** The f-strings of the notebook; [BUCKET] is for the user to fill in and
    [id] is [int(time.time())], printed in decimal. *)
Definition vocab_key (PREFIX : string) : string := PREFIX +:+ "/vocab.json".

Definition vocab_url (BUCKET PREFIX : string) : string :=
  "s3://" +:+ BUCKET +:+ "/" +:+ PREFIX +:+ "/vocab.json".

Definition training_input_path (BUCKET PREFIX : string) : string :=
  "s3://" +:+ BUCKET +:+ "/" +:+ PREFIX +:+ "/train".

Definition test_input_path (BUCKET PREFIX : string) : string :=
  "s3://" +:+ BUCKET +:+ "/" +:+ PREFIX +:+ "/test".

Definition TRAINING_JOB_NAME (id : Z) : string :=
  "huggingface-wav2vec2-training-" +:+ pretty id.

Definition model_name (id : Z) : string :=
  "huggingface-wav2vec2-model-" +:+ pretty id.

Definition endpoint_name (id : Z) : string :=
  "huggingface-wav2vec2-endpoint-" +:+ pretty id.

Definition OUTPUT_PATH (BUCKET PREFIX : string) (id : Z) : string :=
  "s3://" +:+ BUCKET +:+ "/" +:+ PREFIX +:+ "/" +:+ TRAINING_JOB_NAME id
  +:+ "/output/".

(** A dataset of two rows for the examples. *)
Definition example_rows : Splits (Row nat) :=
  {| train_split :=
       [{| file := "1.flac";
           audio := {| audio_path := "1.flac"; audio_array := [1; 2];
                       audio_sampling_rate := 16000%Z |};
           text := "AB, BA" |}];
     test_split :=
       [{| file := "2.flac";
           audio := {| audio_path := "2.flac"; audio_array := [3];
                       audio_sampling_rate := 16000%Z |};
           text := "BA AB!" |}] |}.

(** * Proofs *)

(** ** The normalizer on code points below 256 *)

(** A property of all 256 characters is settled by running through them. *)
Ltac all_chars c :=
  destruct c as [[] [] [] [] [] [] [] []]; vm_compute; try reflexivity; auto.

Lemma lower_char_not_upper c : is_upper (lower_char c) = false.
Proof. all_chars c. Qed.

Lemma lower_char_ignored c : is_ignored (lower_char c) = is_ignored c.
Proof. all_chars c. Qed.

Lemma is_ignored_spec c : is_ignored c = true ↔ c ∈ chars_to_ignore.
Proof. unfold is_ignored. apply bool_decide_eq_true. Qed.

Lemma is_ignored_false c : is_ignored c = false ↔ c ∉ chars_to_ignore.
Proof. unfold is_ignored. apply bool_decide_eq_false. Qed.

Lemma remove_special_characters_chars text :
  String.list_ascii_of_string (remove_special_characters text)
  = normalize_spec (String.list_ascii_of_string text).
Proof.
  unfold remove_special_characters, normalize_spec.
  induction text as [|c rest IH]; simpl; [done|].
  rewrite filter_cons. destruct (is_ignored c) eqn:Hc.
  - apply is_ignored_spec in Hc. by rewrite decide_False by auto.
  - apply is_ignored_false in Hc. rewrite decide_True by done.
    simpl. by rewrite IH.
Qed.

Lemma normalize_spec_clean text :
  Forall (λ c, (c ∉ chars_to_ignore) ∧ is_upper c = false) (normalize_spec text).
Proof.
  unfold normalize_spec. apply Forall_fmap, Forall_forall.
  intros c [Hc _]%list_elem_of_filter. simpl. split.
  - apply is_ignored_false. rewrite lower_char_ignored.
    by apply is_ignored_false.
  - apply lower_char_not_upper.
Qed.

(** ** The normalizer on Python strings *)

Lemma lookup_table_elem_of c table v :
  Unicode.lookup_table c table = Some v → (c, v) ∈ table.
Proof.
  induction table as [|[k w] rest IH]; simpl; [done|].
  destruct (N.eqb_spec c k) as [->|_].
  - intros [= ->]. by left.
  - intros H. right. by apply IH.
Qed.

(** Every image in the table is left alone by [lower] and is none of the
    ignored characters. *)
Lemma lower_table_images :
  Forall (λ kv, Unicode.unchanged_by_lower kv.2 = true
                ∧ Unicode.is_ignored kv.2 = false) Unicode.lower_table.
Proof. apply (bool_decide_unpack _). by vm_compute. Qed.

Lemma unchanged_by_lower_spec c :
  Unicode.unchanged_by_lower c = true ↔
  c ≠ 0x3A3%N ∧ Unicode.to_lower_full c = [c].
Proof.
  unfold Unicode.unchanged_by_lower.
  rewrite andb_true_iff, negb_true_iff, N.eqb_neq, bool_decide_eq_true.
  done.
Qed.

Lemma to_lower_full_cases c :
  (c = 0x130%N ∧ Unicode.to_lower_full c = [0x69; 0x307]%N)
  ∨ (∃ v, (c, v) ∈ Unicode.lower_table ∧ Unicode.to_lower_full c = [v])
  ∨ Unicode.to_lower_full c = [c].
Proof.
  unfold Unicode.to_lower_full. destruct (N.eqb_spec c 0x130) as [->|_].
  - by left.
  - destruct (Unicode.lookup_table c Unicode.lower_table) as [v|] eqn:Hv.
    + right. left. exists v. split; [|done]. by apply lookup_table_elem_of.
    + by do 2 right.
Qed.

Lemma to_lower_full_unchanged c :
  c ≠ 0x3A3%N →
  Forall (λ x, Unicode.unchanged_by_lower x = true) (Unicode.to_lower_full c).
Proof.
  intros Hc. destruct (to_lower_full_cases c) as [[_ ->]|[(v & Hv & ->)|H]].
  - by repeat constructor.
  - constructor; [|done].
    by apply (proj1 (Forall_forall _ _) lower_table_images) in Hv as [? _].
  - rewrite H. constructor; [|done]. by apply unchanged_by_lower_spec.
Qed.

Lemma to_lower_full_not_ignored c :
  Unicode.is_ignored c = false →
  Forall (λ x, Unicode.is_ignored x = false) (Unicode.to_lower_full c).
Proof.
  intros Hc. destruct (to_lower_full_cases c) as [[_ ->]|[(v & Hv & ->)|H]].
  - by repeat constructor.
  - constructor; [|done].
    by apply (proj1 (Forall_forall _ _) lower_table_images) in Hv as [_ ?].
  - rewrite H. by constructor.
Qed.

Lemma handle_capital_sigma_cases before after :
  Unicode.handle_capital_sigma before after = 0x3C2%N
  ∨ Unicode.handle_capital_sigma before after = 0x3C3%N.
Proof.
  unfold Unicode.handle_capital_sigma.
  destruct (_ && _); [by left|by right].
Qed.

Lemma handle_capital_sigma_unchanged before after :
  Unicode.unchanged_by_lower (Unicode.handle_capital_sigma before after) = true
  ∧ Unicode.is_ignored (Unicode.handle_capital_sigma before after) = false.
Proof.
  destruct (handle_capital_sigma_cases before after) as [-> | ->];
    by vm_compute.
Qed.

Lemma lower_go_unchanged text :
  ∀ before,
  Forall (λ x, Unicode.unchanged_by_lower x = true)
         (Unicode.lower_go before text).
Proof.
  induction text as [|c rest IH]; intros before; simpl; [done|].
  apply Forall_app. split; [|apply IH].
  destruct (N.eqb_spec c 0x3A3) as [->|Hc].
  - constructor; [|done]. apply handle_capital_sigma_unchanged.
  - by apply to_lower_full_unchanged.
Qed.

Lemma lower_go_not_ignored text :
  ∀ before,
  Forall (λ x, Unicode.is_ignored x = false) text →
  Forall (λ x, Unicode.is_ignored x = false) (Unicode.lower_go before text).
Proof.
  induction text as [|c rest IH]; intros before; simpl; [done|].
  intros [Hc Hrest]%Forall_cons. apply Forall_app. split; [|by apply IH].
  destruct (c =? 0x3A3)%N.
  - constructor; [|done]. apply handle_capital_sigma_unchanged.
  - by apply to_lower_full_not_ignored.
Qed.

Lemma lower_go_fixed text :
  ∀ before,
  Forall (λ x, Unicode.unchanged_by_lower x = true) text →
  Unicode.lower_go before text = text.
Proof.
  induction text as [|c rest IH]; intros before; simpl; [done|].
  intros [[Hc Hfull]%unchanged_by_lower_spec Hrest]%Forall_cons.
  apply N.eqb_neq in Hc. rewrite Hc, Hfull. simpl. by rewrite IH.
Qed.

Lemma unicode_is_ignored_false c :
  Unicode.is_ignored c = false ↔ c ∉ Unicode.chars_to_ignore.
Proof. unfold Unicode.is_ignored. apply bool_decide_eq_false. Qed.

Lemma unicode_re_sub_ignore_filter text :
  Unicode.re_sub_ignore text
  = filter (λ c, c ∉ Unicode.chars_to_ignore) text.
Proof.
  induction text as [|c rest IH]; [done|].
  rewrite filter_cons. simpl. destruct (Unicode.is_ignored c) eqn:Hc.
  - apply bool_decide_eq_true in Hc. by rewrite decide_False by auto.
  - apply unicode_is_ignored_false in Hc. by rewrite decide_True, IH by done.
Qed.

Lemma unicode_re_sub_ignore_clean text :
  Forall (λ x, Unicode.is_ignored x = false) (Unicode.re_sub_ignore text).
Proof.
  induction text as [|c rest IH]; simpl; [done|].
  destruct (Unicode.is_ignored c) eqn:Hc; [done|]. by constructor.
Qed.

Lemma unicode_re_sub_ignore_fixed text :
  Forall (λ x, Unicode.is_ignored x = false) text →
  Unicode.re_sub_ignore text = text.
Proof.
  induction 1 as [|c rest Hc _ IH]; simpl; [done|]. by rewrite Hc, IH.
Qed.

Lemma unicode_lower_single c :
  Unicode.unchanged_by_lower c = true ↔ Unicode.lower [c] = [c].
Proof.
  rewrite unchanged_by_lower_spec. unfold Unicode.lower. simpl.
  rewrite app_nil_r. destruct (N.eqb_spec c 0x3A3) as [->|Hc].
  - split; [by intros [? _]|]. by vm_compute.
  - split; [by intros [_ ?]|done].
Qed.

Lemma elem_of_code_range first last c :
  (first ≤ last)%N →
  c ∈ Unicode.code_range first last ↔ (first ≤ c ≤ last)%N.
Proof.
  intros Hle. unfold Unicode.code_range. rewrite list_elem_of_fmap. split.
  - intros (k & -> & Hk%elem_of_seq). lia.
  - intros [H1 H2]. exists (N.to_nat (c - first)). split; [lia|].
    apply elem_of_seq. lia.
Qed.

(** The images that the capitals of four alphabets have, and the code
    points below 256 that have none. *)
Lemma capitals_images :
  Forall (λ c, Unicode.to_lower_full c = [(c + 32)%N]) Unicode.capitals_32
  ∧ Forall (λ c, Unicode.to_lower_full c = [(c + 80)%N]) Unicode.capitals_80
  ∧ Forall (λ c, Unicode.to_lower_full c = [c])
           (list_difference (Unicode.code_range 0 0xFF) Unicode.capitals_32).
Proof. split_and!; apply (bool_decide_unpack _); by vm_compute. Qed.

Lemma lower_go_images text :
  ∀ before,
  ∃ images,
    Forall2 (λ c image,
               image = Unicode.to_lower_full c
               ∨ (c = 0x3A3%N ∧ (image = [0x3C2%N] ∨ image = [0x3C3%N])))
            text images
    ∧ Unicode.lower_go before text = concat images.
Proof.
  induction text as [|c rest IH]; intros before.
  - exists []. by split; [constructor|].
  - destruct (IH (c :: before)) as (images & HF & Heq).
    exists ((if (c =? 0x3A3)%N
             then [Unicode.handle_capital_sigma before rest]
             else Unicode.to_lower_full c) :: images).
    split; [|simpl; by rewrite Heq]. constructor; [|done].
    destruct (N.eqb_spec c 0x3A3) as [->|_]; [|by left].
    right. split; [done|].
    destruct (handle_capital_sigma_cases before rest) as [-> | ->]; auto.
Qed.

(** C1: for every string, applying [remove_special_characters] to its own
    result gives that result again: the normalizer is idempotent. *)
Theorem remove_special_characters_idempotent (text : Unicode.str) :
  Unicode.remove_special_characters (Unicode.remove_special_characters text)
  = Unicode.remove_special_characters text.
Proof.
  unfold Unicode.remove_special_characters, Unicode.lower.
  rewrite unicode_re_sub_ignore_fixed.
  - apply lower_go_fixed, lower_go_unchanged.
  - apply lower_go_not_ignored, unicode_re_sub_ignore_clean.
Qed.

(** C2 (as stated): U+03D2, the Greek upsilon with hook, is an uppercase
    letter for [str.isupper] and has no lowercase mapping; the normalizer
    returns it as it is. *)
Lemma capital_without_lowercase_kept :
  Unicode.is_upper 0x3D2 = true
  ∧ Unicode.remove_special_characters [0x3D2]%N = [0x3D2]%N.
Proof. split; by vm_compute. Qed.

(** C2 (amended): the result of [remove_special_characters] holds none of
    the eight ignored characters and no character that lowercasing would
    change, so none of the letters A to Z.  It is the lowercase of the
    input without the ignored characters, and lowercasing goes code point
    by code point: each gives its lowercase mapping, a capital sigma one
    of the two small sigmas.  The capitals of Basic Latin, Latin-1, Greek
    and Cyrillic map to their small letters, U+0130 maps to two code
    points, and every other code point below 256 maps to itself.  White
    space is neither dropped nor changed.  The two examples of the
    specification evaluate as given, and a string of the eight ignored
    characters alone becomes the empty string. *)
Theorem remove_special_characters_spec :
  (∀ text : Unicode.str,
      Forall (λ c, (c ∉ Unicode.chars_to_ignore)
                   ∧ Unicode.lower [c] = [c]
                   ∧ (c < 0x41 ∨ 0x5A < c)%N)
             (Unicode.remove_special_characters text)
      ∧ Unicode.remove_special_characters text
        = Unicode.lower (filter (λ c, c ∉ Unicode.chars_to_ignore) text))
  ∧ (∀ text : Unicode.str,
      ∃ images,
        Forall2 (λ c image,
                   image = Unicode.to_lower_full c
                   ∨ (c = 0x3A3%N
                      ∧ (image = [0x3C2%N] ∨ image = [0x3C3%N])))
                text images
        ∧ Unicode.lower text = concat images)
  ∧ Forall (λ c, Unicode.to_lower_full c = [(c + 32)%N]) Unicode.capitals_32
  ∧ Forall (λ c, Unicode.to_lower_full c = [(c + 80)%N]) Unicode.capitals_80
  ∧ Forall (λ c, Unicode.to_lower_full c = [c])
           (list_difference (Unicode.code_range 0 0xFF) Unicode.capitals_32)
  ∧ Unicode.to_lower_full 0x130 = [0x69; 0x307]%N
  ∧ Unicode.lower [0x38C; 0x3A3; 0x39F; 0x3A3]%N
    = [0x3CC; 0x3C3; 0x3BF; 0x3C2]%N
  ∧ Forall (λ c, (c ∉ Unicode.chars_to_ignore) ∧ Unicode.lower [c] = [c])
           Unicode.whitespace
  ∧ Unicode.remove_special_characters (Unicode.of_string "Hello, World!")
    = Unicode.of_string "hello world"
  ∧ Unicode.remove_special_characters [] = []
  ∧ Unicode.remove_special_characters Unicode.chars_to_ignore = [].
Proof.
  destruct capitals_images as (H32 & H80 & Hsame).
  split; [|split; [|split; [|split; [|split; [|split; [|split; [|split;
    [|split; [|split]]]]]]]]]; [| |exact H32|exact H80|exact Hsame
    |by vm_compute|by vm_compute| |by vm_compute|by vm_compute|by vm_compute].
  - intros text. split; [|unfold Unicode.remove_special_characters;
                          by rewrite unicode_re_sub_ignore_filter].
    unfold Unicode.remove_special_characters, Unicode.lower.
    pose proof (lower_go_unchanged (Unicode.re_sub_ignore text) []) as Hun.
    pose proof (lower_go_not_ignored (Unicode.re_sub_ignore text) []
                  (unicode_re_sub_ignore_clean text)) as Hig.
    apply Forall_forall. intros c Hc.
    apply (proj1 (Forall_forall _ _) Hun) in Hc as Hc1.
    apply (proj1 (Forall_forall _ _) Hig) in Hc as Hc2.
    split_and!.
    + by apply unicode_is_ignored_false.
    + by apply unicode_lower_single.
    + destruct (decide (0x41 ≤ c ≤ 0x5A)%N) as [Hcap|]; [|lia].
      apply unchanged_by_lower_spec in Hc1 as [_ Hfull].
      assert (c ∈ Unicode.capitals_32) as Hin.
      { unfold Unicode.capitals_32. apply elem_of_app. left.
        by apply elem_of_code_range. }
      apply (proj1 (Forall_forall _ _) H32) in Hin.
      rewrite Hfull in Hin. injection Hin. lia.
  - intros text. apply lower_go_images.
  - apply (bool_decide_unpack _). by vm_compute.
Qed.

(** ** The normalizer on code points below 256 and on Python strings

    On a string whose code points are all below 256 the function on
    Python strings computes what the character-wise one does. *)

(** A decidable property of all 256 characters is settled by one run
    through their codes. *)
Lemma all_ascii (P : ascii → Prop) :
  Forall (λ n, P (ascii_of_nat n)) (seq 0 256) → ∀ c, P c.
Proof.
  intros H c. rewrite <- (ascii_nat_embedding c).
  apply (proj1 (Forall_forall _ _) H), elem_of_seq.
  pose proof (nat_ascii_bounded c). lia.
Qed.

Lemma latin1_codes c :
  Unicode.to_lower_full (N_of_ascii c) = [N_of_ascii (lower_char c)]
  ∧ Unicode.is_upper (N_of_ascii c) = is_upper c
  ∧ Unicode.is_ignored (N_of_ascii c) = is_ignored c
  ∧ (N_of_ascii c =? 0x3A3)%N = false.
Proof.
  revert c. apply all_ascii. apply (bool_decide_unpack _). by vm_compute.
Qed.

Lemma latin1_to_lower_full c :
  Unicode.to_lower_full (N_of_ascii c) = [N_of_ascii (lower_char c)].
Proof. apply latin1_codes. Qed.

Lemma latin1_is_upper c : Unicode.is_upper (N_of_ascii c) = is_upper c.
Proof. apply latin1_codes. Qed.

Lemma latin1_is_ignored c : Unicode.is_ignored (N_of_ascii c) = is_ignored c.
Proof. apply latin1_codes. Qed.

Lemma latin1_not_sigma c : (N_of_ascii c =? 0x3A3)%N = false.
Proof. apply latin1_codes. Qed.

Lemma of_string_cons c rest :
  Unicode.of_string (String c rest) = N_of_ascii c :: Unicode.of_string rest.
Proof. reflexivity. Qed.

Lemma latin1_lower_go text :
  ∀ before,
  Unicode.lower_go before (Unicode.of_string text)
  = Unicode.of_string (lower text).
Proof.
  induction text as [|c rest IH]; intros before; [done|].
  cbn [lower]. rewrite !of_string_cons. cbn [Unicode.lower_go].
  by rewrite latin1_not_sigma, latin1_to_lower_full, IH.
Qed.

Lemma latin1_re_sub_ignore text :
  Unicode.re_sub_ignore (Unicode.of_string text)
  = Unicode.of_string (re_sub_ignore text).
Proof.
  induction text as [|c rest IH]; [done|].
  cbn [re_sub_ignore]. rewrite of_string_cons. cbn [Unicode.re_sub_ignore].
  rewrite latin1_is_ignored. destruct (is_ignored c); [done|].
  by rewrite of_string_cons, IH.
Qed.

Lemma latin1_remove_special_characters text :
  Unicode.remove_special_characters (Unicode.of_string text)
  = Unicode.of_string (remove_special_characters text).
Proof.
  unfold Unicode.remove_special_characters, remove_special_characters,
    Unicode.lower.
  by rewrite latin1_re_sub_ignore, latin1_lower_go.
Qed.

(** ** The dictionary comprehension *)

#[global] Instance char_key_inj : Inj (=) (=) char_key.
Proof. intros c1 c2 H. by injection H. Qed.

Lemma char_key_space : char_key " " = " ".
Proof. reflexivity. Qed.

Lemma char_key_bar : char_key "|" = "|".
Proof. reflexivity. Qed.

Lemma char_key_not_UNK c : char_key c ≠ "[UNK]".
Proof. discriminate. Qed.

Lemma char_key_not_PAD c : char_key c ≠ "[PAD]".
Proof. discriminate. Qed.

Section comprehension.
Let store (d : gmap string nat) (kv : nat * ascii) : gmap string nat :=
  <[char_key kv.2 := kv.1]> d.

Lemma fold_store_lookup (l : list ascii) :
  NoDup l → ∀ start acc k i,
  fold_left store (enumerate_from start l) acc !! k = Some i ↔
  (∃ c j, k = char_key c ∧ l !! j = Some c ∧ i = start + j) ∨
  ((∀ c, c ∈ l → k ≠ char_key c) ∧ acc !! k = Some i).
Proof.
  induction 1 as [|x l Hx Hl IH]; intros start acc k i; simpl.
  - split; [intros ?; right; split; [|done]; by intros c ?%elem_of_nil|].
    intros [(c & j & _ & [=] & _)|[_ ?]]; done.
  - rewrite IH. unfold store at 1. simpl. split.
    + intros [(c & j & -> & Hj & ->)|[Hfresh Hk]].
      * left. exists c, (S j). split_and!; [done|done|lia].
      * rewrite lookup_insert in Hk. case_decide as Hkx.
        -- left. exists x, 0. simplify_eq. split_and!; [done|done|lia].
        -- right. split; [|done]. intros c [->|?]%elem_of_cons; auto.
    + intros [(c & [|j] & -> & Hj & ->)|[Hfresh Hk]].
      * simpl in Hj. injection Hj as <-. right. split.
        -- intros c Hc Heq. apply (inj char_key) in Heq. by subst.
        -- rewrite lookup_insert_eq. f_equal. lia.
      * left. exists c, j. split_and!; [done|done|lia].
      * right. split.
        -- intros c Hc. apply Hfresh. by right.
        -- rewrite lookup_insert_ne; [done|].
           intros Heq. by apply (Hfresh x); [left|].
Qed.

Lemma fold_store_size (l : list ascii) :
  NoDup l → ∀ start acc,
  (∀ c, c ∈ l → acc !! char_key c = None) →
  size (fold_left store (enumerate_from start l) acc) = size acc + length l.
Proof.
  induction 1 as [|x l Hx Hl IH]; intros start acc Hacc; simpl; [lia|].
  rewrite IH.
  - unfold store. simpl. rewrite map_size_insert_None; [lia|].
    apply Hacc. by left.
  - intros c Hc. unfold store. simpl. rewrite lookup_insert_ne.
    + apply Hacc. by right.
    + intros Heq. apply (inj char_key) in Heq. by subst.
Qed.
End comprehension.

Lemma dict_comprehension_lookup (l : list ascii) k i :
  NoDup l →
  dict_comprehension (enumerate l) !! k = Some i ↔
  ∃ c, k = char_key c ∧ l !! i = Some c.
Proof.
  intros Hl. unfold dict_comprehension, enumerate.
  rewrite (fold_store_lookup l Hl). split.
  - intros [(c & j & -> & Hj & ->)|[_ Hk]]; [by exists c|].
    by rewrite lookup_empty in Hk.
  - intros (c & -> & Hi). left. by exists c, i.
Qed.

Lemma dict_comprehension_size (l : list ascii) :
  NoDup l → size (dict_comprehension (enumerate l)) = length l.
Proof.
  intros Hl. unfold dict_comprehension, enumerate.
  rewrite (fold_store_size l Hl); [by rewrite map_size_empty|].
  intros c _. apply lookup_empty.
Qed.

Lemma dict_comprehension_None (l : list ascii) c :
  NoDup l → c ∉ l → dict_comprehension (enumerate l) !! char_key c = None.
Proof.
  intros Hl Hc. apply eq_None_not_Some. intros [i Hi].
  apply dict_comprehension_lookup in Hi as (c' & Heq & Hi); [|done].
  apply (inj char_key) in Heq. subst c'.
  apply Hc. by eapply list_elem_of_lookup_2.
Qed.

(** ** The renaming of the space key and the reserved tokens *)

Lemma vocab_dict_KeyError (l : list ascii) :
  NoDup l → " "%char ∉ l → vocab_dict l = inl (KeyError " ").
Proof.
  intros Hl Hsp. unfold vocab_dict, getitem.
  rewrite <- char_key_space at 1. by rewrite dict_comprehension_None.
Qed.

Lemma vocab_dict_inr (l : list ascii) j :
  NoDup l → l !! j = Some " "%char →
  vocab_dict l =
    inr (<["[PAD]" := S (size (renamed l j))]>
           (<["[UNK]" := size (renamed l j)]> (renamed l j))).
Proof.
  intros Hl Hj.
  assert (dict_comprehension (enumerate l) !! " " = Some j) as Hsp.
  { apply dict_comprehension_lookup; [done|]. by exists " "%char. }
  unfold vocab_dict, getitem, delitem. rewrite Hsp. simpl.
  rewrite lookup_insert_ne by done. rewrite Hsp. simpl.
  fold (renamed l j). unfold mret, result_ret. do 2 f_equal.
  rewrite map_size_insert_None; [done|].
  unfold renamed. rewrite lookup_delete_ne, lookup_insert_ne by done.
  apply eq_None_not_Some. intros [i Hi].
  apply dict_comprehension_lookup in Hi as (c & Heq & _); [|done].
  by destruct (char_key_not_UNK c).
Qed.

Lemma renamed_lookup (l : list ascii) j k i :
  NoDup l → l !! j = Some " "%char →
  renamed l j !! k = Some i ↔
  (k = "|" ∧ i = j) ∨
  (∃ c, k = char_key c ∧ c ≠ " "%char ∧ c ≠ "|"%char ∧ l !! i = Some c).
Proof.
  intros Hl Hj. unfold renamed.
  rewrite lookup_delete_Some, lookup_insert_Some.
  rewrite (dict_comprehension_lookup l k i Hl). split.
  - intros [Hsp [[<- <-]|[Hbar (c & -> & Hi)]]]; [by left|].
    right. exists c. split_and!; [done| |  |done]; by intros ->.
  - intros [[-> ->]|(c & -> & Hsp & Hbar & Hi)].
    + split; [done|]. by left.
    + split; [by intros [=]|]. right. split; [by intros [=]|]. by exists c.
Qed.

Lemma renamed_size (l : list ascii) j :
  NoDup l → l !! j = Some " "%char →
  size (renamed l j) = if decide ("|"%char ∈ l) then length l - 1 else length l.
Proof.
  intros Hl Hj. unfold renamed.
  assert (dict_comprehension (enumerate l) !! " " = Some j) as Hsp.
  { apply dict_comprehension_lookup; [done|]. by exists " "%char. }
  rewrite map_size_delete, lookup_insert_ne, Hsp by done.
  rewrite map_size_insert, dict_comprehension_size by done.
  case_decide as Hbar.
  - apply list_elem_of_lookup_1 in Hbar as [i Hi].
    assert (dict_comprehension (enumerate l) !! "|" = Some i) as ->;
      [|simpl; lia].
    apply dict_comprehension_lookup; [done|]. by exists "|"%char.
  - rewrite <- char_key_bar, dict_comprehension_None by done. simpl. lia.
Qed.

(** The part of the final dictionary above the renamed one. *)
Lemma reserved_lookup (d : gmap string nat) k i :
  (<["[PAD]" := S (size d)]> (<["[UNK]" := size d]> d)) !! k = Some i ↔
  (k = "[PAD]" ∧ i = S (size d)) ∨ (k = "[UNK]" ∧ i = size d) ∨
  (k ≠ "[PAD]" ∧ k ≠ "[UNK]" ∧ d !! k = Some i).
Proof. rewrite !lookup_insert_Some. naive_solver. Qed.

Lemma renamed_no_reserved (l : list ascii) j k :
  NoDup l → l !! j = Some " "%char → is_Some (renamed l j !! k) →
  k ≠ "[PAD]" ∧ k ≠ "[UNK]" ∧ k ≠ " ".
Proof.
  intros Hl Hj [i Hi].
  apply renamed_lookup in Hi as [[-> _]|(c & -> & Hsp & _)]; [done| |done..].
  split_and!; [done|done|]. intros Heq. apply Hsp. by injection Heq.
Qed.

Lemma reserved_size (l : list ascii) j :
  NoDup l → l !! j = Some " "%char →
  size (<["[PAD]" := S (size (renamed l j))]>
          (<["[UNK]" := size (renamed l j)]> (renamed l j)))
  = size (renamed l j) + 2.
Proof.
  intros Hl Hj.
  assert (∀ k, (k = "[PAD]" ∨ k = "[UNK]") → renamed l j !! k = None) as Hno.
  { intros k Hk. apply eq_None_not_Some. intros Hs.
    apply renamed_no_reserved in Hs; naive_solver. }
  rewrite map_size_insert_None.
  - rewrite map_size_insert_None; [lia|]. apply Hno. by right.
  - rewrite lookup_insert_ne by done. apply Hno. by left.
Qed.

(** ** The characters that a run enumerates *)

Lemma list_of_set_elements (s : gset ascii) : list_of_set s (elements s).
Proof. split; [apply NoDup_elements|apply list_to_set_elements_L]. Qed.

Lemma list_of_set_elem_of (s : gset ascii) l c :
  list_of_set s l → c ∈ l ↔ c ∈ s.
Proof. intros [_ <-]. by rewrite elem_of_list_to_set. Qed.

Lemma list_of_set_length (s : gset ascii) l :
  list_of_set s l → length l = size s.
Proof. intros [Hl <-]. by rewrite size_list_to_set. Qed.

Lemma map_extract_characters_Some split e :
  map_extract_characters split (Some e) ↔
  split ≠ [] ∧ extract_characters split e.
Proof.
  destruct split as [|t ts]; simpl.
  - split; [done|]. by intros [? _].
  - split.
    + by intros (e' & He & [= ->]).
    + intros [_ He]. by exists e.
Qed.

Lemma map_extract_characters_None split :
  map_extract_characters split None ↔ split = [].
Proof.
  destruct split as [|t ts]; simpl; [done|].
  split; [by intros (e & _ & [=])|done].
Qed.

Lemma map_extract_characters_elements split :
  split ≠ [] →
  map_extract_characters split
    (Some {| vocab := elements (str_set (join " " split));
             texts := join " " split |}).
Proof.
  intros Hne. apply map_extract_characters_Some. split; [done|].
  split; [done|]. apply list_of_set_elements.
Qed.

Lemma vocab_list_of_iff dataset l :
  vocab_list_of dataset l ↔
  nonempty_splits dataset ∧ list_of_set (run_chars dataset) l.
Proof.
  unfold vocab_list_of, nonempty_splits, run_chars.
  setoid_rewrite map_extract_characters_Some. unfold extract_characters.
  split.
  - intros ([v1 t1] & [v2 t2] & [? [Ht1 [_ Hv1]]] & [? [Ht2 [_ Hv2]]] & Hl).
    simpl in *. by rewrite Hv1, Hv2, Ht1, Ht2 in Hl.
  - intros [[Htr Hte] Hl].
    exists {| vocab := elements (str_set (join " " (train dataset)));
              texts := join " " (train dataset) |},
           {| vocab := elements (str_set (join " " (test dataset)));
              texts := join " " (test dataset) |}.
    simpl. split_and!; try done; try apply list_of_set_elements.
    by rewrite !list_to_set_elements_L.
Qed.

(** A run on splits that both have rows goes on to [vocab_dict]. *)
Lemma buildVocabulary_iff dataset r :
  nonempty_splits dataset →
  buildVocabulary dataset r ↔
  ∃ l, list_of_set (run_chars dataset) l ∧ r = vocab_dict l.
Proof.
  intros Hne. split.
  - intros (v1 & v2 & H1 & H2 & Hr).
    destruct v1 as [e1|]; [|apply map_extract_characters_None in H1;
                             by destruct Hne].
    destruct v2 as [e2|]; [|apply map_extract_characters_None in H2;
                             by destruct Hne].
    simpl in Hr. destruct Hr as (l & Hl & ->). exists l. split; [|done].
    apply vocab_list_of_iff. by exists e1, e2.
  - intros (l & (e1 & e2 & H1 & H2 & Hl)%(conj Hne)%vocab_list_of_iff & ->).
    exists (Some e1), (Some e2). split_and!; [done..|]. simpl. by exists l.
Qed.

(** A run on a dataset with an empty split ends at the missing column. *)
Lemma buildVocabulary_empty dataset r :
  ¬ nonempty_splits dataset →
  buildVocabulary dataset r ↔ r = inl (MissingColumn "vocab").
Proof.
  intros Hne. split.
  - intros (v1 & v2 & H1 & H2 & Hr).
    destruct v1 as [e1|]; [|done]. destruct v2 as [e2|]; [|done].
    apply map_extract_characters_Some in H1 as [? _], H2 as [? _].
    by destruct Hne.
  - intros ->. destruct (train dataset) as [|t ts] eqn:Htr.
    + exists None. destruct (test dataset) as [|u us] eqn:Hte.
      * exists None. by rewrite ?Htr, ?Hte.
      * exists (Some {| vocab := elements (str_set (join " " (u :: us)));
                        texts := join " " (u :: us) |}).
        rewrite ?Htr, ?Hte. split_and!; [done| |done].
        by apply map_extract_characters_elements.
    + destruct (test dataset) as [|u us] eqn:Hte.
      * exists (Some {| vocab := elements (str_set (join " " (t :: ts)));
                        texts := join " " (t :: ts) |}), None.
        rewrite ?Htr, ?Hte. split_and!; [|done..].
        by apply map_extract_characters_elements.
      * destruct Hne. unfold nonempty_splits. by rewrite Htr, Hte.
Qed.

Lemma buildVocabulary_inr_nonempty dataset m :
  buildVocabulary dataset (inr m) → nonempty_splits dataset.
Proof.
  intros Hm. destruct (decide (nonempty_splits dataset)) as [|Hne]; [done|].
  by apply (buildVocabulary_empty _ _ Hne) in Hm.
Qed.

(** The cell always has a run: the one that iterates sets in the order of
    [elements]. *)
Lemma buildVocabulary_with_elements dataset :
  buildVocabulary dataset (buildVocabulary_with elements dataset).
Proof.
  destruct (decide (nonempty_splits dataset)) as [Hne|Hne].
  - apply buildVocabulary_iff; [done|]. unfold buildVocabulary_with.
    destruct Hne as [Htr Hte].
    unfold run_chars.
    destruct (train dataset) as [|t ts]; [done|].
    destruct (test dataset) as [|u us]; [done|].
    eexists. split; [|done]. rewrite !list_to_set_elements_L.
    apply list_of_set_elements.
  - apply buildVocabulary_empty; [done|]. unfold buildVocabulary_with.
    destruct (train dataset) as [|t ts] eqn:Ht; [done|].
    destruct (test dataset) as [|u us] eqn:Hu; [done|].
    destruct Hne. unfold nonempty_splits. by rewrite Ht, Hu.
Qed.

Lemma list_ascii_of_string_app (a b : string) :
  String.list_ascii_of_string (a +:+ b)
  = (String.list_ascii_of_string a ++ String.list_ascii_of_string b)%list.
Proof. induction a as [|c a IH]; simpl; [done|]. by rewrite IH. Qed.

Lemma str_set_app (a b : string) : str_set (a +:+ b) = str_set a ∪ str_set b.
Proof.
  unfold str_set. rewrite list_ascii_of_string_app.
  apply list_to_set_app_L.
Qed.

Lemma str_set_empty : str_set "" = ∅.
Proof. reflexivity. Qed.

Lemma str_set_space : str_set " " = {[" "%char]}.
Proof. unfold str_set. simpl. set_solver. Qed.

Lemma str_set_join (sep : string) (items : list string) :
  str_set (join sep items)
  = ⋃ (str_set <$> items)
    ∪ (if decide (2 ≤ length items) then str_set sep else ∅).
Proof.
  induction items as [|x [|y rest] IH].
  - rewrite decide_False by (simpl; lia). simpl. set_solver.
  - rewrite decide_False by (simpl; lia). simpl. set_solver.
  - change (join sep (x :: y :: rest)) with (x +:+ sep +:+ join sep (y :: rest)).
    rewrite !str_set_app, IH.
    rewrite (decide_True (P := 2 ≤ length (x :: y :: rest))) by (simpl; lia).
    rewrite !fmap_cons, !union_list_cons. case_decide; set_solver.
Qed.

Lemma run_chars_corpus dataset :
  run_chars dataset
  = corpus_chars dataset
    ∪ (if decide (2 ≤ length (train dataset) ∨ 2 ≤ length (test dataset))
       then {[" "%char]} else ∅).
Proof.
  unfold run_chars, corpus_chars, transcripts.
  rewrite !str_set_join, fmap_app, union_list_app_L, str_set_space.
  repeat case_decide; try set_solver; exfalso; tauto.
Qed.

(** ** The final dictionary *)

Section final.
Context (l : list ascii) (j : nat).
Hypothesis Hl : NoDup l.
Hypothesis Hj : l !! j = Some " "%char.

Lemma final_lookup k i :
  with_reserved (renamed l j) !! k = Some i ↔
  (k = "[PAD]" ∧ i = S (size (renamed l j))) ∨
  (k = "[UNK]" ∧ i = size (renamed l j)) ∨
  (k = "|" ∧ i = j) ∨
  (∃ c, k = char_key c ∧ c ≠ " "%char ∧ c ≠ "|"%char ∧ l !! i = Some c).
Proof.
  unfold with_reserved. rewrite reserved_lookup, renamed_lookup by done.
  split.
  - naive_solver.
  - intros [?|[?|[[-> ->]|(c & -> & ?)]]]; [by left|by right; left|..];
      right; right; (split_and!; [done|done|]); [by left|right; by exists c].
Qed.

Lemma final_size : size (with_reserved (renamed l j)) = size (renamed l j) + 2.
Proof. by apply reserved_size. Qed.

Lemma final_dom :
  dom (with_reserved (renamed l j))
  = {["[PAD]"; "[UNK]"; "|"]}
    ∪ set_map char_key ((list_to_set l : gset ascii) ∖ {[" "%char]}).
Proof.
  apply set_eq. intros k. rewrite elem_of_dom. unfold is_Some.
  setoid_rewrite final_lookup.
  rewrite !elem_of_union, elem_of_map, !elem_of_singleton. split.
  - intros (i & [[-> _]|[[-> _]|[[-> _]|(c & -> & Hsp & Hbar & Hi)]]]); auto.
    right. exists c. split; [done|].
    apply elem_of_difference. split; [|by rewrite elem_of_singleton].
    apply elem_of_list_to_set. by eapply list_elem_of_lookup_2.
  - intros [[[->| ->]| ->]|(c & -> & [Hc Hsp]%elem_of_difference)];
      [eexists; by left|eexists; right; by left
      |eexists; do 2 right; by left|].
    apply elem_of_list_to_set, list_elem_of_lookup_1 in Hc as [i Hi].
    rewrite elem_of_singleton in Hsp.
    destruct (decide (c = "|"%char)) as [->|Hbar].
    + exists j. do 2 right. by left.
    + exists i. do 3 right. by exists c.
Qed.

Lemma final_space : with_reserved (renamed l j) !! " " = None.
Proof.
  apply eq_None_not_Some. intros [i Hi]. apply final_lookup in Hi.
  destruct Hi as [[? _]|[[? _]|[[? _]|(c & Heq & Hsp & _)]]]; try done.
  apply Hsp. by injection Heq.
Qed.

Lemma final_bar : with_reserved (renamed l j) !! "|" = Some j.
Proof. apply final_lookup. do 2 right. by left. Qed.

Lemma final_UNK :
  with_reserved (renamed l j) !! "[UNK]" = Some (size (renamed l j)).
Proof. apply final_lookup. right. by left. Qed.

Lemma final_PAD :
  with_reserved (renamed l j) !! "[PAD]" = Some (S (size (renamed l j))).
Proof. apply final_lookup. by left. Qed.

(** When the delimiter is not itself a character of the corpus the
    indices are those of the enumeration followed by the two tokens. *)
Section without_bar.
Hypothesis Hbar : "|"%char ∉ l.

Lemma renamed_size_without_bar : size (renamed l j) = length l.
Proof. rewrite renamed_size by done. by rewrite decide_False. Qed.

Lemma final_injective : injective (with_reserved (renamed l j)).
Proof.
  assert (j < length l) as Hjlt by by eapply lookup_lt_Some.
  intros k1 k2 i H1 H2. apply final_lookup in H1, H2.
  rewrite renamed_size_without_bar in H1, H2.
  destruct H1 as [[-> ->]|[[-> ->]|[[-> ->]|(c1 & -> & Hs1 & _ & Hi1)]]];
  destruct H2 as [[-> E]|[[-> E]|[[-> E]|(c2 & -> & Hs2 & _ & Hi2)]]];
    try done; try lia;
    try (apply lookup_lt_Some in Hi1; lia);
    try (apply lookup_lt_Some in Hi2; lia);
    try congruence.
Qed.

Lemma final_dense : dense (with_reserved (renamed l j)).
Proof.
  assert (j < length l) as Hjlt by by eapply lookup_lt_Some.
  intros i. rewrite final_size, renamed_size_without_bar.
  setoid_rewrite final_lookup. rewrite renamed_size_without_bar. split.
  - intros Hi. destruct (decide (i = S (length l))) as [->|];
      [exists "[PAD]"; by left|].
    destruct (decide (i = length l)) as [->|];
      [exists "[UNK]"; right; by left|].
    destruct (decide (i = j)) as [->|Hij];
      [exists "|"; do 2 right; by left|].
    destruct (lookup_lt_is_Some_2 l i) as [c Hc]; [lia|].
    exists (char_key c). do 3 right. exists c. split_and!; try done.
    + intros ->. apply Hij. by eapply NoDup_lookup.
    + intros ->. apply Hbar. by eapply list_elem_of_lookup_2.
  - intros (k & [[_ ->]|[[_ ->]|[[_ ->]|(c & _ & _ & _ & Hi)]]]); try lia.
    apply lookup_lt_Some in Hi. lia.
Qed.
End without_bar.
End final.

(** ** Runs of the cell *)

Lemma vocab_dict_with_reserved (l : list ascii) j :
  NoDup l → l !! j = Some " "%char →
  vocab_dict l = inr (with_reserved (renamed l j)).
Proof. apply vocab_dict_inr. Qed.

Lemma buildVocabulary_total dataset : ∃ r, buildVocabulary dataset r.
Proof. eexists. apply buildVocabulary_with_elements. Qed.

(** Without a space among the enumerated characters every run stops at the
    lookup of the space key. *)
Lemma buildVocabulary_no_space dataset r :
  nonempty_splits dataset →
  " "%char ∉ run_chars dataset →
  buildVocabulary dataset r ↔ r = inl (KeyError " ").
Proof.
  intros Hne Hsp. rewrite buildVocabulary_iff by done. split.
  - intros (l & Hl & ->). apply vocab_dict_KeyError; [apply Hl|].
    by rewrite (list_of_set_elem_of _ _ _ Hl).
  - intros ->. exists (elements (run_chars dataset)).
    split; [apply list_of_set_elements|].
    symmetry. apply vocab_dict_KeyError; [apply NoDup_elements|].
    by rewrite elem_of_elements.
Qed.

(** With a space every run ends in a dictionary. *)
Lemma buildVocabulary_space dataset r :
  nonempty_splits dataset →
  " "%char ∈ run_chars dataset →
  buildVocabulary dataset r ↔
  ∃ l j, list_of_set (run_chars dataset) l ∧ l !! j = Some " "%char ∧
         r = inr (with_reserved (renamed l j)).
Proof.
  intros Hne Hsp. rewrite buildVocabulary_iff by done. split.
  - intros (l & Hl & ->).
    assert (" "%char ∈ l) as [j Hj]%list_elem_of_lookup_1
      by by rewrite (list_of_set_elem_of _ _ _ Hl).
    exists l, j. split_and!; [done..|].
    apply vocab_dict_with_reserved; [apply Hl|done].
  - intros (l & j & Hl & Hj & ->). exists l. split; [done|].
    symmetry. apply vocab_dict_with_reserved; [apply Hl|done].
Qed.

Lemma corpus_chars_run_chars dataset c :
  c ∈ corpus_chars dataset → c ∈ run_chars dataset.
Proof. rewrite run_chars_corpus. set_solver. Qed.

Lemma run_chars_two dataset :
  2 ≤ length (train dataset) ∨ 2 ≤ length (test dataset) →
  " "%char ∈ run_chars dataset.
Proof.
  intros H. rewrite run_chars_corpus, decide_True by done. set_solver.
Qed.

Lemma corpus_chars_perm d1 d2 :
  transcripts d1 ≡ₚ transcripts d2 → corpus_chars d1 = corpus_chars d2.
Proof.
  intros H. unfold corpus_chars. apply set_eq. intros c.
  rewrite !elem_of_union_list. by setoid_rewrite H.
Qed.

(** C5: when the normalized text holds a space, every run returns a mapping
    in which the space character is not a key and the delimiter token has
    the index that the enumeration gave to the space; and a corpus made of
    the two transcripts [ab ba] and [ba ab], one in each split, gives a
    mapping of exactly five entries with the keys a, b, the delimiter and
    the two reserved tokens, the latter two at the indices 3 and 4. *)
Theorem delimiter_takes_space_index :
  (∀ dataset vocab_list,
      " "%char ∈ corpus_chars dataset →
      vocab_list_of dataset vocab_list →
      ∃ m j, vocab_dict vocab_list = inr m ∧
             dict_comprehension (enumerate vocab_list) !! " " = Some j ∧
             m !! " " = None ∧ m !! "|" = Some j)
  ∧ (∀ dataset r,
      transcripts dataset ≡ₚ example_corpus →
      nonempty_splits dataset →
      buildVocabulary dataset r →
      ∃ m, r = inr m ∧ size m = 5 ∧
           dom m = {["a"; "b"; "|"; "[UNK]"; "[PAD]"]} ∧
           m !! "[UNK]" = Some 3 ∧ m !! "[PAD]" = Some 4).
Proof.
  split.
  - intros dataset l Hsp%corpus_chars_run_chars [_ Hl]%vocab_list_of_iff.
    assert (" "%char ∈ l) as [j Hj]%list_elem_of_lookup_1
      by by rewrite (list_of_set_elem_of _ _ _ Hl).
    destruct Hl as [Hnd Hset].
    exists (with_reserved (renamed l j)), j. split_and!.
    + by apply vocab_dict_with_reserved.
    + apply dict_comprehension_lookup; [done|]. by exists " "%char.
    + by apply final_space.
    + by apply final_bar.
  - intros dataset r Hperm Hne Hrun.
    assert (run_chars dataset = {["a"; "b"; " "]}%char) as Hchars.
    { rewrite run_chars_corpus.
      rewrite (corpus_chars_perm dataset {| train := example_corpus; test := [] |})
        by by rewrite Hperm.
      assert (corpus_chars {| train := example_corpus; test := [] |}
              = {["a"; "b"; " "]}%char) as -> by by vm_compute.
      case_decide; set_solver. }
    apply buildVocabulary_space in Hrun as (l & j & Hl & Hj & ->);
      [|done|rewrite Hchars; set_solver].
    assert ("|"%char ∉ l) as Hbar.
    { rewrite (list_of_set_elem_of _ _ _ Hl), Hchars. set_solver. }
    assert (length l = 3) as Hlen.
    { rewrite (list_of_set_length _ _ Hl), Hchars. by vm_compute. }
    destruct Hl as [Hnd Hset].
    exists (with_reserved (renamed l j)). split_and!; [done|..].
    + rewrite final_size, renamed_size_without_bar by done. lia.
    + rewrite final_dom by done. rewrite Hset, Hchars. by vm_compute.
    + rewrite final_UNK by done. f_equal.
      rewrite renamed_size_without_bar by done. lia.
    + rewrite final_PAD by done. f_equal.
      rewrite renamed_size_without_bar by done. lia.
Qed.

Lemma delimiter_takes_space_index_witness :
  (∃ m j, vocab_dict ["a"; " "; "b"]%char = inr m ∧
          dict_comprehension (enumerate ["a"; " "; "b"]%char) !! " " = Some j ∧
          m !! " " = None ∧ m !! "|" = Some j)
  ∧ (∃ m, vocab_dict ["a"; " "; "b"]%char = inr m ∧ size m = 5 ∧
          dom m = {["a"; "b"; "|"; "[UNK]"; "[PAD]"]} ∧
          m !! "[UNK]" = Some 3 ∧ m !! "[PAD]" = Some 4).
Proof.
  split.
  - apply (proj1 delimiter_takes_space_index example_dataset).
    + apply (bool_decide_unpack _). by vm_compute.
    + apply vocab_list_of_iff, (bool_decide_unpack _). by vm_compute.
  - apply (proj2 delimiter_takes_space_index example_dataset).
    + reflexivity.
    + by split; vm_compute.
    + apply buildVocabulary_iff; [by split; vm_compute|].
    exists ["a"; " "; "b"]%char.
      split; [|reflexivity]. apply (bool_decide_unpack _). by vm_compute.
Defined.

Lemma buildVocabulary_inr dataset m :
  buildVocabulary dataset (inr m) →
  ∃ l j, list_of_set (run_chars dataset) l ∧ l !! j = Some " "%char ∧
         m = with_reserved (renamed l j).
Proof.
  intros Hm. pose proof (buildVocabulary_inr_nonempty _ _ Hm) as Hne.
  destruct (decide (" "%char ∈ run_chars dataset)) as [Hsp|Hsp].
  - apply buildVocabulary_space in Hm as (l & j & ? & ? & [= ->]); [|done..].
    by exists l, j.
  - by apply buildVocabulary_no_space in Hm.
Qed.

(** ** A corpus without any space *)

Lemma run_chars_small dataset :
  length (train dataset) ≤ 1 → length (test dataset) ≤ 1 →
  run_chars dataset = corpus_chars dataset.
Proof.
  intros H1 H2. rewrite run_chars_corpus, decide_False by lia. set_solver.
Qed.

(** C7 (as stated): the two one-word transcripts [hello] (train) and
    [world] (test) hold no space and no join inserts a separator; every
    run of the cell ends in the [KeyError] of the space lookup and no
    mapping is produced. *)
Lemma spaceless_corpus_KeyError :
  (" "%char ∉ corpus_chars spaceless_dataset)
  ∧ buildVocabulary spaceless_dataset (inl (KeyError " "))
  ∧ ¬ (∃ m, buildVocabulary spaceless_dataset (inr m)).
Proof.
  assert (nonempty_splits spaceless_dataset) as Hne by by split; vm_compute.
  assert (" "%char ∉ run_chars spaceless_dataset) as Hsp.
  { apply (bool_decide_unpack _). by vm_compute. }
  split_and!.
  - apply (bool_decide_unpack _). by vm_compute.
  - by apply buildVocabulary_no_space.
  - intros [m Hm]. by apply buildVocabulary_no_space in Hm.
Qed.

(** C7 (amended): for a corpus whose transcripts hold no space the cell
    never returns a mapping without the delimiter.  If a split has no
    transcript, the only outcome is the [KeyError] of the missing [vocab]
    column.  If each split has exactly one transcript, the only outcome is
    the [KeyError] of the space lookup.  If both splits have transcripts
    and one has two or more, the cell has a run and every run returns a
    mapping, which holds the delimiter token. *)
Theorem spaceless_transcripts (dataset : DatasetDict) :
  " "%char ∉ corpus_chars dataset →
  (¬ nonempty_splits dataset →
   ∀ r, buildVocabulary dataset r ↔ r = inl (MissingColumn "vocab"))
  ∧ (length (train dataset) = 1 ∧ length (test dataset) = 1 →
     ∀ r, buildVocabulary dataset r ↔ r = inl (KeyError " "))
  ∧ (nonempty_splits dataset →
     2 ≤ length (train dataset) ∨ 2 ≤ length (test dataset) →
     (∃ r, buildVocabulary dataset r) ∧
     ∀ r, buildVocabulary dataset r → ∃ m, r = inr m ∧ is_Some (m !! "|")).
Proof.
  intros Hsp. split_and!.
  - intros Hne r. by apply buildVocabulary_empty.
  - intros [H1 H2] r. apply buildVocabulary_no_space.
    + split; intros Heq; rewrite Heq in *; simpl in *; lia.
    + rewrite run_chars_small by lia. done.
  - intros Hne Htwo%run_chars_two. split; [apply buildVocabulary_total|].
    intros r (l & j & [Hl _] & Hj & ->)%buildVocabulary_space; [|done..].
    eexists. split; [done|]. exists j. by apply final_bar.
Qed.

Lemma spaceless_transcripts_witness :
  (∀ r, buildVocabulary empty_test_split r ↔ r = inl (MissingColumn "vocab"))
  ∧ (∀ r, buildVocabulary spaceless_dataset r ↔ r = inl (KeyError " "))
  ∧ ((∃ r, buildVocabulary two_in_train r) ∧
     ∀ r, buildVocabulary two_in_train r →
          ∃ m, r = inr m ∧ is_Some (m !! "|")).
Proof.
  split; [|split].
  - apply (proj1 (spaceless_transcripts empty_test_split
                    ltac:(apply (bool_decide_unpack _); by vm_compute))).
    intros [_ Hte]. by apply Hte.
  - apply (proj1 (proj2 (spaceless_transcripts spaceless_dataset
                    ltac:(apply (bool_decide_unpack _); by vm_compute)))).
    split; reflexivity.
  - apply (proj2 (proj2 (spaceless_transcripts two_in_train
                    ltac:(apply (bool_decide_unpack _); by vm_compute)))).
    + by split; vm_compute.
    + left. simpl. lia.
Defined.

(** ** Corpora without characters *)

Lemma list_of_set_singleton (c : ascii) l :
  list_of_set {[c]} l ↔ l = [c].
Proof.
  split.
  - intros Hl. pose proof (list_of_set_length _ _ Hl) as Hlen.
    rewrite size_singleton in Hlen.
    destruct l as [|x [|y l]]; simpl in Hlen; try lia.
    f_equal. assert (x ∈ [x]) as Hx by by left.
    rewrite (list_of_set_elem_of _ _ _ Hl) in Hx. set_solver.
  - intros ->. split; [apply NoDup_singleton|]. simpl. set_solver.
Qed.

Lemma str_set_blank (ts : list string) :
  Forall (λ t, t = "") ts → ⋃ (str_set <$> ts) = (∅ : gset ascii).
Proof.
  induction 1 as [|t ts -> _ IH]; [done|].
  rewrite fmap_cons, union_list_cons, IH, str_set_empty. set_solver.
Qed.

Lemma corpus_chars_blank dataset :
  Forall (λ t, t = "") (transcripts dataset) → corpus_chars dataset = ∅.
Proof. apply str_set_blank. Qed.

(** C6 (as stated): the three empty transcripts of [blank_dataset] yield no
    character, and yet a run returns a mapping. *)
Lemma blank_corpus_returns_mapping :
  corpus_chars blank_dataset = ∅
  ∧ buildVocabulary blank_dataset (inr reserved_only)
  ∧ ¬ (∀ r, buildVocabulary blank_dataset r → ∃ e, r = inl e).
Proof.
  assert (buildVocabulary blank_dataset (inr reserved_only)) as Hrun.
  { apply buildVocabulary_iff; [by split; vm_compute|].
    exists [" "%char]. split; [|by vm_compute].
    apply (bool_decide_unpack _). by vm_compute. }
  split_and!; [by vm_compute|done|].
  intros H. by destruct (H _ Hrun) as [e [=]].
Qed.

(** C6 (amended): with no transcript at all the cell returns no mapping:
    [extract_characters] is never called, no split has a [vocab] column,
    and the only outcome is the [KeyError] that the train split raises for
    that column. *)
Theorem no_transcripts_KeyError (r : result (gmap string nat)) :
  buildVocabulary no_dataset r ↔ r = inl (MissingColumn "vocab").
Proof.
  apply buildVocabulary_empty. intros [Htr _]. by apply Htr.
Qed.

(** ** The separator of the join *)

(** C9 (as stated): two transcripts, one in each split, are joined with no
    separator at all; the enumerated characters hold no space and the only
    outcome of the cell is the [KeyError]. *)
Lemma one_transcript_per_split_no_delimiter :
  length (transcripts two_singleton_splits) = 2
  ∧ (" "%char ∉ run_chars two_singleton_splits)
  ∧ buildVocabulary two_singleton_splits (inl (KeyError " "))
  ∧ ¬ (∃ m, buildVocabulary two_singleton_splits (inr m)).
Proof.
  assert (nonempty_splits two_singleton_splits) as Hne by by split; vm_compute.
  assert (" "%char ∉ run_chars two_singleton_splits) as Hsp.
  { apply (bool_decide_unpack _). by vm_compute. }
  split_and!; [done|done|by apply buildVocabulary_no_space|].
  intros [m Hm]. by apply buildVocabulary_no_space in Hm.
Qed.

(** C9 (amended): when both splits have transcripts and the train split or
    the test split holds at least two of them, the space is among the
    enumerated characters whatever the transcripts contain, the cell has a
    run, and every run returns a mapping with the delimiter token among
    its keys. *)
Theorem join_separator_gives_delimiter (dataset : DatasetDict) :
  nonempty_splits dataset →
  2 ≤ length (train dataset) ∨ 2 ≤ length (test dataset) →
  " "%char ∈ run_chars dataset
  ∧ (∃ r, buildVocabulary dataset r)
  ∧ ∀ r, buildVocabulary dataset r → ∃ m, r = inr m ∧ is_Some (m !! "|").
Proof.
  intros Hne Hsp%run_chars_two.
  split_and!; [done|apply buildVocabulary_total|].
  intros r (l & j & [Hl _] & Hj & ->)%buildVocabulary_space; [|done..].
  eexists. split; [done|]. exists j. by apply final_bar.
Qed.

Lemma join_separator_gives_delimiter_witness :
  " "%char ∈ run_chars two_in_train
  ∧ (∃ r, buildVocabulary two_in_train r)
  ∧ ∀ r, buildVocabulary two_in_train r → ∃ m, r = inr m ∧ is_Some (m !! "|").
Proof.
  apply (join_separator_gives_delimiter two_in_train).
  - by split; vm_compute.
  - left. simpl. lia.
Defined.

(** C10 (as stated): two empty transcripts, one in each split, leave the
    character set empty and the cell fails. *)
Lemma one_blank_per_split_fails :
  length (transcripts two_blank_splits) = 2
  ∧ Forall (λ t, t = "") (transcripts two_blank_splits)
  ∧ run_chars two_blank_splits = ∅
  ∧ buildVocabulary two_blank_splits (inl (KeyError " "))
  ∧ ¬ (∃ m, buildVocabulary two_blank_splits (inr m)).
Proof.
  assert (nonempty_splits two_blank_splits) as Hne by by split; vm_compute.
  assert (" "%char ∉ run_chars two_blank_splits) as Hsp.
  { apply (bool_decide_unpack _). by vm_compute. }
  split_and!; [done|by repeat constructor|by vm_compute
              |by apply buildVocabulary_no_space|].
  intros [m Hm]. by apply buildVocabulary_no_space in Hm.
Qed.

(** C10 (amended): when all transcripts are empty, both splits have
    transcripts and the train split or the test split holds at least two
    of them, the enumerated character set is exactly the space and the
    cell returns, in its only outcome, the mapping of the delimiter and
    the two tokens to 0, 1 and 2. *)
Theorem blank_transcripts_reserved_only (dataset : DatasetDict) :
  Forall (λ t, t = "") (transcripts dataset) →
  nonempty_splits dataset →
  2 ≤ length (train dataset) ∨ 2 ≤ length (test dataset) →
  run_chars dataset = {[" "%char]}
  ∧ ∀ r, buildVocabulary dataset r ↔ r = inr reserved_only.
Proof.
  intros Hblank Hne Htwo.
  assert (run_chars dataset = {[" "%char]}) as Hchars.
  { rewrite run_chars_corpus, corpus_chars_blank, decide_True by done.
    set_solver. }
  split; [done|]. intros r. rewrite buildVocabulary_iff, Hchars by done.
  setoid_rewrite list_of_set_singleton. split.
  - by intros (l & -> & ->).
  - intros ->. by exists [" "%char].
Qed.

Lemma blank_transcripts_reserved_only_witness :
  run_chars blank_dataset = {[" "%char]}
  ∧ ∀ r, buildVocabulary blank_dataset r ↔ r = inr reserved_only.
Proof.
  apply (blank_transcripts_reserved_only blank_dataset).
  - unfold blank_dataset, transcripts. simpl. repeat constructor.
  - by split; vm_compute.
  - left. simpl. lia.
Defined.

(** ** The order of the transcripts *)

Lemma renamed_size_chars (s : gset ascii) l j :
  list_of_set s l → l !! j = Some " "%char →
  size (renamed l j) = if decide ("|"%char ∈ s) then size s - 1 else size s.
Proof.
  intros Hl Hj. rewrite renamed_size by (done || apply Hl).
  rewrite (list_of_set_length _ _ Hl).
  destruct (decide ("|"%char ∈ l)) as [Hb|Hb], (decide ("|"%char ∈ s)) as [Hs|Hs];
    try done; rewrite (list_of_set_elem_of _ _ _ Hl) in Hb; done.
Qed.

Lemma nonempty_splits_length dataset :
  nonempty_splits dataset ↔
  0 < length (train dataset) ∧ 0 < length (test dataset).
Proof.
  unfold nonempty_splits.
  destruct (train dataset), (test dataset); simpl; split;
    intros [? ?]; split; (done || lia).
Qed.

Lemma nonempty_splits_perm d1 d2 :
  transcripts d1 ≡ₚ transcripts d2 →
  length (train d1) = length (train d2) →
  nonempty_splits d1 ↔ nonempty_splits d2.
Proof.
  intros Hperm Htrain. rewrite !nonempty_splits_length.
  apply Permutation_length in Hperm. unfold transcripts in Hperm.
  rewrite !length_app in Hperm. lia.
Qed.

Lemma run_chars_perm d1 d2 :
  transcripts d1 ≡ₚ transcripts d2 →
  length (train d1) = length (train d2) →
  run_chars d1 = run_chars d2.
Proof.
  intros Hperm Htrain.
  assert (length (test d1) = length (test d2)) as Htest.
  { apply Permutation_length in Hperm. unfold transcripts in Hperm.
    rewrite !length_app in Hperm. lia. }
  rewrite !run_chars_corpus, (corpus_chars_perm d1 d2), Htrain, Htest by done.
  done.
Qed.

(** C8 (as stated): the train split [a], [b] and its reordering [b], [a]
    have runs with different final mappings: nothing fixes the order in
    which a set hands out its characters, so the indices of the ordinary
    characters need not agree. *)
Lemma reordered_transcripts_differ :
  transcripts two_in_train ≡ₚ transcripts two_in_train_swapped
  ∧ buildVocabulary two_in_train (inr vocab_a_first)
  ∧ buildVocabulary two_in_train_swapped (inr vocab_b_first)
  ∧ vocab_a_first ≠ vocab_b_first.
Proof.
  split_and!.
  - apply perm_swap.
  - apply buildVocabulary_iff; [by split; vm_compute|].
    exists ["a"; " "; "b"; "c"]%char.
    split; [|by vm_compute]. apply (bool_decide_unpack _). by vm_compute.
  - apply buildVocabulary_iff; [by split; vm_compute|].
    exists ["b"; " "; "a"; "c"]%char.
    split; [|by vm_compute]. apply (bool_decide_unpack _). by vm_compute.
  - intros Heq. assert (vocab_a_first !! "a" = vocab_b_first !! "a") as H
      by by rewrite Heq.
    vm_compute in H. discriminate.
Qed.

(** C8 (amended): reordering the transcripts of a corpus (the sizes of the
    splits kept) leaves the possible outcomes of the cell unchanged, and
    any two mappings returned on the two orderings have the same keys, the
    same size and the same indices for the two reserved tokens; only the
    indices that the set iteration hands to the characters may differ. *)
Theorem transcript_order_same_outcomes (d1 d2 : DatasetDict) :
  transcripts d1 ≡ₚ transcripts d2 →
  length (train d1) = length (train d2) →
  (∀ r, buildVocabulary d1 r ↔ buildVocabulary d2 r)
  ∧ ∀ m1 m2,
      buildVocabulary d1 (inr m1) → buildVocabulary d2 (inr m2) →
      dom m1 = dom m2 ∧ size m1 = size m2 ∧
      m1 !! "[UNK]" = m2 !! "[UNK]" ∧ m1 !! "[PAD]" = m2 !! "[PAD]".
Proof.
  intros Hperm Htrain. pose proof (run_chars_perm _ _ Hperm Htrain) as Hchars.
  split.
  - intros r. pose proof (nonempty_splits_perm _ _ Hperm Htrain) as Hne.
    destruct (decide (nonempty_splits d1)) as [H1|H1].
    + rewrite !buildVocabulary_iff, Hchars by tauto. done.
    + rewrite !buildVocabulary_empty by tauto. done.
  - intros m1 m2 (l1 & j1 & Hl1 & Hj1 & ->)%buildVocabulary_inr
                 (l2 & j2 & Hl2 & Hj2 & ->)%buildVocabulary_inr.
    rewrite <- Hchars in Hl2.
    assert (size (renamed l1 j1) = size (renamed l2 j2)) as Hsize.
    { by rewrite (renamed_size_chars _ _ _ Hl1), (renamed_size_chars _ _ _ Hl2). }
    destruct Hl1 as [Hnd1 Hset1], Hl2 as [Hnd2 Hset2].
    rewrite !final_dom, !final_size, !final_UNK, !final_PAD by done.
    by rewrite Hsize, Hset1, Hset2.
Qed.

Lemma transcript_order_same_outcomes_witness :
  (∀ r, buildVocabulary two_in_train r ↔ buildVocabulary two_in_train_swapped r)
  ∧ ∀ m1 m2,
      buildVocabulary two_in_train (inr m1) →
      buildVocabulary two_in_train_swapped (inr m2) →
      dom m1 = dom m2 ∧ size m1 = size m2 ∧
      m1 !! "[UNK]" = m2 !! "[UNK]" ∧ m1 !! "[PAD]" = m2 !! "[PAD]".
Proof.
  apply (transcript_order_same_outcomes two_in_train two_in_train_swapped).
  - apply perm_swap.
  - reflexivity.
Defined.

(** ** A corpus that contains the delimiter character *)

Lemma size_without_space (s : gset ascii) :
  " "%char ∈ s → size s = size (s ∖ {[" "%char]}) + 1.
Proof.
  intros Hsp. rewrite (union_difference_L {[" "%char]} s) at 1 by set_solver.
  rewrite size_union by set_solver. rewrite size_singleton. lia.
Qed.

Lemma run_chars_without_space dataset :
  run_chars dataset ∖ {[" "%char]} = corpus_chars dataset ∖ {[" "%char]}.
Proof. rewrite run_chars_corpus. case_decide; set_solver. Qed.

(** What a successful run on a corpus without the bar looks like. *)
Lemma run_without_bar dataset m :
  "|"%char ∉ corpus_chars dataset →
  buildVocabulary dataset (inr m) →
  ∃ l j, NoDup l ∧ l !! j = Some " "%char ∧ ("|"%char ∉ l) ∧
         length l = size (corpus_chars dataset ∖ {[" "%char]}) + 1 ∧
         m = with_reserved (renamed l j).
Proof.
  intros Hbar (l & j & Hl & Hj & ->)%buildVocabulary_inr.
  exists l, j. split_and!; [apply Hl|done| | |done].
  - rewrite (list_of_set_elem_of _ _ _ Hl), run_chars_corpus.
    case_decide; set_solver.
  - rewrite (list_of_set_length _ _ Hl), <- run_chars_without_space.
    apply size_without_space. rewrite <- (list_of_set_elem_of _ _ _ Hl).
    by eapply list_elem_of_lookup_2.
Qed.

Lemma example_run : buildVocabulary example_dataset (inr example_vocab).
Proof.
  apply buildVocabulary_iff; [by split; vm_compute|].
    exists ["a"; " "; "b"]%char.
  split; [|by vm_compute]. apply (bool_decide_unpack _). by vm_compute.
Qed.

Lemma example_no_bar : "|"%char ∉ corpus_chars example_dataset.
Proof. apply (bool_decide_unpack _). by vm_compute. Qed.

(** Whenever the bar is a corpus character and the set iteration does not
    hand it out last, the unknown token gets an index that another key
    holds already. *)
Lemma bar_not_last_collision (l : list ascii) j :
  NoDup l → l !! j = Some " "%char →
  "|"%char ∈ l → last l ≠ Some "|"%char →
  ¬ injective (with_reserved (renamed l j)).
Proof.
  intros Hl Hj Hbar Hlast Hinj.
  assert (size (renamed l j) = pred (length l)) as Hsize.
  { rewrite renamed_size, decide_True by done. lia. }
  pose proof (final_UNK l j Hl Hj) as HU. rewrite Hsize in HU.
  rewrite last_lookup in Hlast.
  assert (j < length l) by by eapply lookup_lt_Some.
  destruct (lookup_lt_is_Some_2 l (pred (length l))) as [c Hc]; [lia|].
  destruct (decide (c = " "%char)) as [->|Hsp].
  - assert (j = pred (length l)) as Hjlast by by eapply NoDup_lookup.
    pose proof (final_bar l j Hl Hj) as HB. rewrite Hjlast in HB at 2.
    by specialize (Hinj "|" "[UNK]" _ HB HU).
  - assert (with_reserved (renamed l j) !! char_key c = Some (pred (length l)))
      as HC.
    { apply final_lookup; [done..|]. do 3 right. exists c.
      split_and!; try done. intros ->. by apply Hlast. }
    specialize (Hinj _ _ _ HC HU). by destruct (char_key_not_UNK c).
Qed.

(** C3 (as stated): on the corpus [a | b] (train), [c] (test) the run that
    enumerates the characters as a, space, bar, b, c returns a mapping in
    which [c] and the unknown token share the index 4 and no key has the
    index 2: the mapping is neither injective nor dense.  The same happens
    to injectivity in every run on this corpus that does not enumerate the
    bar last. *)
Lemma bar_corpus_not_injective_not_dense :
  buildVocabulary bar_dataset (inr bar_vocab)
  ∧ ¬ injective bar_vocab ∧ ¬ dense bar_vocab
  ∧ ∀ l, list_of_set (run_chars bar_dataset) l → last l ≠ Some "|"%char →
         ∃ m, vocab_dict l = inr m ∧ ¬ injective m.
Proof.
  split_and!.
  - apply buildVocabulary_iff; [by split; vm_compute|].
    exists ["a"; " "; "|"; "b"; "c"]%char.
    split; [|by vm_compute]. apply (bool_decide_unpack _). by vm_compute.
  - intros Hinj. by specialize (Hinj "c" "[UNK]" 4 eq_refl eq_refl).
  - intros Hdense. destruct (proj1 (Hdense 2)) as [k Hk].
    + assert (size bar_vocab = 6) as -> by by vm_compute. lia.
    + unfold bar_vocab in Hk. apply elem_of_list_to_map_2 in Hk.
      set_solver.
  - intros l Hl Hlast.
    assert (run_chars bar_dataset = {["a"; " "; "|"; "b"; "c"]}%char) as Hchars
      by by vm_compute.
    assert (" "%char ∈ l) as [j Hj]%list_elem_of_lookup_1.
    { rewrite (list_of_set_elem_of _ _ _ Hl), Hchars. set_solver. }
    assert ("|"%char ∈ l) as Hbar.
    { rewrite (list_of_set_elem_of _ _ _ Hl), Hchars. set_solver. }
    destruct Hl as [Hnd _]. exists (with_reserved (renamed l j)).
    split; [by apply vocab_dict_with_reserved|].
    by apply bar_not_last_collision.
Qed.

(** C3 (amended): if the bar does not occur in the corpus, every mapping
    that the cell returns (after the substitution of the delimiter and the
    two reserved tokens) is injective and its indices are exactly the
    numbers below its size. *)
Theorem vocabulary_injective_dense (dataset : DatasetDict) (m : gmap string nat) :
  "|"%char ∉ corpus_chars dataset →
  buildVocabulary dataset (inr m) →
  injective m ∧ dense m.
Proof.
  intros Hbar (l & j & Hl & Hj & Hbar' & _ & ->)%run_without_bar; [|done].
  split; [by apply final_injective|by apply final_dense].
Qed.

Lemma vocabulary_injective_dense_witness :
  injective example_vocab ∧ dense example_vocab.
Proof.
  apply (vocabulary_injective_dense example_dataset).
  - apply example_no_bar.
  - apply example_run.
Defined.

(** C4 (as stated): the same corpus has four distinct characters other
    than the space, and every run on it returns a mapping of six entries,
    one short of four plus three. *)
Lemma bar_corpus_size :
  size (corpus_chars bar_dataset ∖ {[" "%char]}) = 4
  ∧ buildVocabulary bar_dataset (inr bar_vocab)
  ∧ size bar_vocab = 6
  ∧ ∀ r, buildVocabulary bar_dataset r → ∃ m, r = inr m ∧ size m = 6.
Proof.
  split_and!; [by vm_compute| |by vm_compute|].
  { apply buildVocabulary_iff; [by split; vm_compute|].
    exists ["a"; " "; "|"; "b"; "c"]%char.
    split; [|by vm_compute]. apply (bool_decide_unpack _). by vm_compute. }
  assert (run_chars bar_dataset = {["a"; " "; "|"; "b"; "c"]}%char) as Hchars
    by by vm_compute.
  intros r (l & j & Hl & Hj & ->)%buildVocabulary_space;
    [|by split; vm_compute|rewrite Hchars; set_solver].
  assert (size (renamed l j) = 4) as Hsize.
  { rewrite (renamed_size_chars _ _ _ Hl Hj), Hchars.
    rewrite decide_True by set_solver. by vm_compute. }
  destruct Hl as [Hnd Hset]. eexists. split; [done|].
  by rewrite final_size, Hsize by done.
Qed.

(** C4 (amended): if the bar does not occur in the corpus, a returned
    mapping has as many entries as the corpus has distinct characters
    other than the space, plus three; the unknown token and the padding
    token have the indices N-2 and N-1, in that order, and every other key
    has a smaller index. *)
Theorem vocabulary_size_and_tokens (dataset : DatasetDict) (m : gmap string nat) :
  "|"%char ∉ corpus_chars dataset →
  buildVocabulary dataset (inr m) →
  size m = size (corpus_chars dataset ∖ {[" "%char]}) + 3
  ∧ m !! "[UNK]" = Some (size m - 2)
  ∧ m !! "[PAD]" = Some (size m - 1)
  ∧ ∀ k i, m !! k = Some i → k ≠ "[UNK]" → k ≠ "[PAD]" → i < size m - 2.
Proof.
  intros Hbar (l & j & Hl & Hj & Hbar' & Hlen & ->)%run_without_bar; [|done].
  rewrite final_size, final_UNK, final_PAD by done.
  rewrite renamed_size_without_bar by done.
  split_and!; [lia|f_equal; lia..|].
  intros k i Hk HU HP. apply final_lookup in Hk; [|done..].
  assert (j < length l) by by eapply lookup_lt_Some.
  destruct Hk as [[? _]|[[? _]|[[_ ->]|(c & _ & _ & _ & Hi)]]]; try done;
    [lia|]. apply lookup_lt_Some in Hi. lia.
Qed.

Lemma vocabulary_size_and_tokens_witness :
  size example_vocab = size (corpus_chars example_dataset ∖ {[" "%char]}) + 3
  ∧ example_vocab !! "[UNK]" = Some (size example_vocab - 2)
  ∧ example_vocab !! "[PAD]" = Some (size example_vocab - 1)
  ∧ ∀ k i, example_vocab !! k = Some i → k ≠ "[UNK]" → k ≠ "[PAD]" →
           i < size example_vocab - 2.
Proof.
  apply (vocabulary_size_and_tokens example_dataset).
  - apply example_no_bar.
  - apply example_run.
Defined.

(** * Further properties of the notebook's cells *)

(** ** Outcomes and keys of the vocabulary cell *)

Lemma size_without (c : ascii) (s : gset ascii) :
  c ∈ s → size s = size (s ∖ {[c]}) + 1.
Proof.
  intros Hc. rewrite (union_difference_L {[c]} s) at 1 by set_solver.
  rewrite size_union by set_solver. rewrite size_singleton. lia.
Qed.

Lemma run_chars_space_iff dataset :
  " "%char ∈ run_chars dataset ↔
  " "%char ∈ corpus_chars dataset
  ∨ 2 ≤ length (train dataset) ∨ 2 ≤ length (test dataset).
Proof.
  rewrite run_chars_corpus. case_decide as H; [set_solver|].
  split; [set_solver|]. intros [?|?]; [set_solver|tauto].
Qed.

Lemma run_dom dataset m :
  buildVocabulary dataset (inr m) →
  dom m = {["[PAD]"; "[UNK]"; "|"]}
          ∪ set_map char_key (corpus_chars dataset ∖ {[" "%char]}).
Proof.
  intros (l & j & [Hnd Hset] & Hj & ->)%buildVocabulary_inr.
  by rewrite final_dom, Hset, run_chars_without_space.
Qed.

(** X1: the cell returns a mapping exactly when both splits have
    transcripts and a transcript holds a space or a split holds two or
    more transcripts.  Otherwise it raises: the [KeyError] of the missing
    [vocab] column when a split has no transcript, and else the [KeyError]
    of the space lookup; it raises nothing else (the deletion of the space
    key never fails), and whether it fails does not depend on the
    iteration order of the sets. *)
Theorem buildVocabulary_outcomes (dataset : DatasetDict) :
  ((∃ m, buildVocabulary dataset (inr m)) ↔
   nonempty_splits dataset
   ∧ (" "%char ∈ corpus_chars dataset
      ∨ 2 ≤ length (train dataset) ∨ 2 ≤ length (test dataset)))
  ∧ (∀ e, buildVocabulary dataset (inl e) →
          (nonempty_splits dataset ∧ e = KeyError " ")
          ∨ (¬ nonempty_splits dataset ∧ e = MissingColumn "vocab"))
  ∧ ¬ ((∃ m, buildVocabulary dataset (inr m))
       ∧ (∃ e, buildVocabulary dataset (inl e))).
Proof.
  rewrite <- run_chars_space_iff.
  destruct (decide (nonempty_splits dataset)) as [Hne|Hne].
  - destruct (decide (" "%char ∈ run_chars dataset)) as [Hsp|Hsp].
    + split_and!.
      * split; [done|]. intros _.
        destruct (buildVocabulary_total dataset) as [r Hr].
        pose proof Hr as (l & j & _ & _ & ->)%buildVocabulary_space;
          [|done..].
        by eexists.
      * by intros e (l & j & _ & _ & [=])%buildVocabulary_space.
      * by intros [_ [e (l & j & _ & _ & [=])%buildVocabulary_space]].
    + split_and!.
      * split; [|tauto]. by intros [m [=]%buildVocabulary_no_space].
      * intros e [= ->]%buildVocabulary_no_space; [|done..]. by left.
      * by intros [[m [=]%buildVocabulary_no_space] _].
  - split_and!.
    + split; [|tauto]. by intros [m [=]%buildVocabulary_empty].
    + intros e [= ->]%buildVocabulary_empty; [|done]. by right.
    + by intros [[m [=]%buildVocabulary_empty] _].
Qed.

(** X2: the keys of a returned mapping are fixed by the corpus alone: the
    two reserved tokens, the delimiter, and the one-character string of
    every character of the transcripts other than the space. *)
Theorem vocabulary_keys (dataset : DatasetDict) (m : gmap string nat) :
  buildVocabulary dataset (inr m) →
  dom m = {["[PAD]"; "[UNK]"; "|"]}
          ∪ set_map char_key (corpus_chars dataset ∖ {[" "%char]}).
Proof. apply run_dom. Qed.

Lemma vocabulary_keys_witness :
  dom example_vocab
  = {["[PAD]"; "[UNK]"; "|"]}
    ∪ set_map char_key (corpus_chars example_dataset ∖ {[" "%char]}).
Proof. apply (vocabulary_keys example_dataset). apply example_run. Defined.

(** X3: whatever the corpus holds (the bar included), a returned mapping
    has as many entries as the transcripts have distinct characters other
    than the space and the bar, plus three; the unknown and the padding
    token have the indices N-2 and N-1; and every index is below N. *)
Theorem vocabulary_indices_in_range (dataset : DatasetDict) (m : gmap string nat) :
  buildVocabulary dataset (inr m) →
  size m = size (corpus_chars dataset ∖ {[" "%char; "|"%char]}) + 3
  ∧ m !! "[UNK]" = Some (size m - 2)
  ∧ m !! "[PAD]" = Some (size m - 1)
  ∧ ∀ k i, m !! k = Some i → i < size m.
Proof.
  intros (l & j & Hl & Hj & ->)%buildVocabulary_inr.
  assert (run_chars dataset ∖ {[" "%char; "|"%char]}
          = corpus_chars dataset ∖ {[" "%char; "|"%char]}) as Hrest.
  { rewrite run_chars_corpus. case_decide; set_solver. }
  pose proof (renamed_size_chars _ _ _ Hl Hj) as Hsize.
  pose proof (list_of_set_length _ _ Hl) as Hlen.
  assert (" "%char ∈ run_chars dataset) as Hsp.
  { rewrite <- (list_of_set_elem_of _ _ _ Hl). by eapply list_elem_of_lookup_2. }
  assert (size (renamed l j) + 2
          = size (corpus_chars dataset ∖ {[" "%char; "|"%char]}) + 3
          ∧ length l ≤ size (renamed l j) + 1) as [Hn Hle].
  { rewrite <- Hrest, Hsize, Hlen, (size_without _ _ Hsp).
    case_decide as Hbar.
    - rewrite (size_without "|"%char (run_chars dataset ∖ {[" "%char]}))
        by set_solver.
      replace (run_chars dataset ∖ {[" "%char]} ∖ {["|"%char]})
        with (run_chars dataset ∖ {[" "%char; "|"%char]}) by set_solver.
      lia.
    - replace (run_chars dataset ∖ {[" "%char; "|"%char]})
        with (run_chars dataset ∖ {[" "%char]}) by set_solver.
      lia. }
  destruct Hl as [Hnd Hset].
  rewrite final_size, final_UNK, final_PAD by done.
  split_and!; [done|f_equal; lia..|].
  intros k i Hk. apply final_lookup in Hk; [|done..].
  assert (j < length l) by by eapply lookup_lt_Some.
  destruct Hk as [[_ ->]|[[_ ->]|[[_ ->]|(c & _ & _ & _ & Hi)]]]; try lia.
  apply lookup_lt_Some in Hi. lia.
Qed.

Lemma vocabulary_indices_in_range_witness :
  size bar_vocab = size (corpus_chars bar_dataset ∖ {[" "%char; "|"%char]}) + 3
  ∧ bar_vocab !! "[UNK]" = Some (size bar_vocab - 2)
  ∧ bar_vocab !! "[PAD]" = Some (size bar_vocab - 1)
  ∧ ∀ k i, bar_vocab !! k = Some i → i < size bar_vocab.
Proof.
  apply (vocabulary_indices_in_range bar_dataset).
  apply buildVocabulary_iff; [by split; vm_compute|].
    exists ["a"; " "; "|"; "b"; "c"]%char.
  split; [|by vm_compute]. apply (bool_decide_unpack _). by vm_compute.
Defined.

(** X4: the [vocab] that [extract_characters] returns for a batch has no
    repeated character and holds exactly the characters of the batch's
    transcripts, and the space as soon as the batch has two transcripts. *)
Theorem extract_characters_vocab (batch : list string) (out : extracted) :
  extract_characters batch out →
  NoDup (vocab out)
  ∧ ∀ c, c ∈ vocab out ↔
         (∃ t, t ∈ batch ∧ c ∈ String.list_ascii_of_string t)
         ∨ (c = " "%char ∧ 2 ≤ length batch).
Proof.
  intros [Htexts Hl]. split; [apply Hl|]. intros c.
  rewrite (list_of_set_elem_of _ _ _ Hl), Htexts, str_set_join, str_set_space.
  rewrite elem_of_union, elem_of_union_list. split.
  - intros [(X & (t & -> & Ht)%list_elem_of_fmap & Hc)|Hc].
    + left. exists t. split; [done|]. by apply elem_of_list_to_set in Hc.
    + right. case_decide; set_solver.
  - intros [(t & Ht & Hc)|[-> Htwo]].
    + left. exists (str_set t). split; [by apply list_elem_of_fmap_2|].
      by apply elem_of_list_to_set.
    + right. rewrite decide_True by done. set_solver.
Qed.

Lemma extract_characters_vocab_witness :
  NoDup ["a"; " "; "b"]%char
  ∧ ∀ c, c ∈ ["a"; " "; "b"]%char ↔
         (∃ t, t ∈ ["a"; "b"] ∧ c ∈ String.list_ascii_of_string t)
         ∨ (c = " "%char ∧ 2 ≤ length ["a"; "b"]).
Proof.
  apply (extract_characters_vocab ["a"; "b"]
           {| vocab := ["a"; " "; "b"]%char; texts := "a b" |}).
  split; [reflexivity|]. apply (bool_decide_unpack _). by vm_compute.
Defined.

(** ** The normalized dataset and its vocabulary *)

Lemma corpus_chars_elem_of dataset c :
  c ∈ corpus_chars dataset ↔
  ∃ t, t ∈ transcripts dataset ∧ c ∈ String.list_ascii_of_string t.
Proof.
  unfold corpus_chars. rewrite elem_of_union_list. split.
  - intros (X & (t & -> & Ht)%list_elem_of_fmap & Hc).
    exists t. split; [done|]. by apply elem_of_list_to_set in Hc.
  - intros (t & Ht & Hc). exists (str_set t).
    split; [by apply list_elem_of_fmap_2|]. by apply elem_of_list_to_set.
Qed.

Lemma normalized_transcripts {sample} (raw : Splits (Row sample)) t :
  t ∈ transcripts (text_column (dataset_map remove_special_characters_batch raw)) →
  ∃ row, row ∈ (train_split raw ++ test_split raw)%list
         ∧ t = remove_special_characters (text row).
Proof.
  unfold transcripts, text_column, dataset_map. simpl.
  rewrite <- !list_fmap_compose, <- fmap_app.
  intros (row & -> & Hrow)%list_elem_of_fmap. by exists row.
Qed.

Lemma remove_special_characters_clean text c :
  c ∈ String.list_ascii_of_string (remove_special_characters text) →
  (c ∉ chars_to_ignore) ∧ is_upper c = false.
Proof.
  rewrite remove_special_characters_chars. intros Hc.
  by apply (proj1 (Forall_forall _ _) (normalize_spec_clean _)) in Hc.
Qed.

Lemma run_covers dataset m t c :
  buildVocabulary dataset (inr m) →
  t ∈ transcripts dataset → c ∈ String.list_ascii_of_string t →
  (c = " "%char ∧ is_Some (m !! "|"))
  ∨ (c ≠ " "%char ∧ is_Some (m !! char_key c)).
Proof.
  intros Hm Ht Hc. rewrite <- !elem_of_dom, (run_dom _ _ Hm).
  destruct (decide (c = " "%char)) as [->|Hsp]; [left|right];
    (split; [done|]); [set_solver|].
  apply elem_of_union_r, elem_of_map. exists c. split; [done|].
  apply elem_of_difference. split; [|set_solver].
  apply corpus_chars_elem_of. by exists t.
Qed.

(** X5: for transcripts of code points below 256, in a vocabulary built
    from the dataset that [remove_special_characters] has been mapped over,
    every key is a reserved token, the delimiter, or the one-character
    string of a character that is neither the space nor one of the eight
    ignored characters, that [str.lower] leaves as it is and that
    [str.isupper] does not accept. *)
Theorem normalized_vocabulary_keys {sample} (raw : Splits (Row sample))
    (m : gmap string nat) (k : string) :
  buildVocabulary
    (text_column (dataset_map remove_special_characters_batch raw)) (inr m) →
  is_Some (m !! k) →
  k = "[PAD]" ∨ k = "[UNK]" ∨ k = "|"
  ∨ ∃ c, k = char_key c ∧ c ≠ " "%char
         ∧ (c ∉ chars_to_ignore)
         ∧ Unicode.lower [N_of_ascii c] = [N_of_ascii c]
         ∧ Unicode.is_upper (N_of_ascii c) = false.
Proof.
  intros Hm Hk. apply elem_of_dom in Hk. rewrite (run_dom _ _ Hm) in Hk.
  apply elem_of_union in Hk as [Hk|Hk]; [set_solver|].
  apply elem_of_map in Hk as (c & -> & [Hc Hsp]%elem_of_difference).
  do 3 right. exists c.
  apply corpus_chars_elem_of in Hc as (t & Ht & Hc).
  apply normalized_transcripts in Ht as (row & _ & ->).
  apply remove_special_characters_clean in Hc as [Hig Hup].
  split_and!; [done|set_solver|done| |by rewrite latin1_is_upper].
  unfold Unicode.lower. cbn [Unicode.lower_go].
  rewrite latin1_not_sigma, latin1_to_lower_full.
  unfold lower_char. by rewrite Hup.
Qed.

Lemma example_rows_run :
  buildVocabulary
    (text_column (dataset_map remove_special_characters_batch example_rows))
    (inr example_vocab).
Proof.
  apply buildVocabulary_iff; [by split; vm_compute|].
    exists ["a"; " "; "b"]%char.
  split; [|by vm_compute]. apply (bool_decide_unpack _). by vm_compute.
Qed.

Lemma normalized_vocabulary_keys_witness :
  "a" = "[PAD]" ∨ "a" = "[UNK]" ∨ "a" = "|"
  ∨ ∃ c, "a" = char_key c ∧ c ≠ " "%char
         ∧ (c ∉ chars_to_ignore)
         ∧ Unicode.lower [N_of_ascii c] = [N_of_ascii c]
         ∧ Unicode.is_upper (N_of_ascii c) = false.
Proof.
  apply (normalized_vocabulary_keys example_rows example_vocab "a").
  - apply example_rows_run.
  - exists 0. reflexivity.
Defined.

(** X6: the vocabulary covers the labels of the prepared dataset: for
    every row that [extract_array_samplingrate] produces from the
    normalized dataset, every character of its [target_text] is the space,
    with the delimiter a key of the mapping, or has its one-character
    string as a key. *)
Theorem target_text_covered {sample} (raw : Splits (Row sample))
    (m : gmap string nat) (row : Prepared sample) (c : ascii) :
  buildVocabulary
    (text_column (dataset_map remove_special_characters_batch raw)) (inr m) →
  row ∈ (train_split (prepare raw) ++ test_split (prepare raw))%list →
  c ∈ String.list_ascii_of_string (target_text row) →
  (c = " "%char ∧ is_Some (m !! "|"))
  ∨ (c ≠ " "%char ∧ is_Some (m !! char_key c)).
Proof.
  intros Hm Hrow Hc.
  apply (run_covers
           (text_column (dataset_map remove_special_characters_batch raw))
           m (target_text row)); [done| |done].
  unfold prepare, dataset_map in Hrow. simpl in Hrow.
  rewrite <- fmap_app in Hrow.
  apply list_elem_of_fmap in Hrow as (r & -> & Hr).
  unfold transcripts, text_column, dataset_map. simpl.
  rewrite <- fmap_app. by apply list_elem_of_fmap_2.
Qed.

Lemma target_text_covered_witness :
  ("b"%char = " "%char ∧ is_Some (example_vocab !! "|"))
  ∨ ("b"%char ≠ " "%char ∧ is_Some (example_vocab !! char_key "b")).
Proof.
  apply (target_text_covered example_rows example_vocab
           {| speech := [1; 2]; sampling_rate := 16000%Z;
              target_text := "ab ba" |}).
  - apply example_rows_run.
  - by left.
  - simpl. set_solver.
Defined.

(** ** The random row of the audio cell *)

(** X8: [random.randint] includes its upper bound, so the number of rows of
    the train split is one of the draws of the cell that plays one audio
    file, whatever the split and whatever [ipd.Audio] does; with that draw
    the cell prints nothing and ends in the [IndexError] of the row lookup.
    It is the only draw with which a row lookup fails: with every smaller
    draw the cell prints the [target_text] of the row at that position and
    hands the [speech] of the same row to [ipd.Audio], whose widget or
    exception is the outcome of the cell. *)
Theorem rand_int_out_of_bounds {sample widget audio_exception : Type}
    (Audio : list sample → audio_exception + widget)
    (rows : list (Prepared sample)) (rand_int : nat) :
  randint 0 (length rows) rand_int →
  randint 0 (length rows) (length rows)
  ∧ check_audio_cell Audio rows (length rows)
    = ([], inl (Lookup (IndexError (length rows) (length rows))))
  ∧ (∀ printed e,
       check_audio_cell Audio rows rand_int = (printed, inl (Lookup e)) →
       rand_int = length rows)
  ∧ (rand_int < length rows →
     ∃ row, rows !! rand_int = Some row
            ∧ check_audio_cell Audio rows rand_int
              = ([target_text row],
                 match Audio (speech row) with
                 | inl e => inl (FromAudio e)
                 | inr w => inr w
                 end)).
Proof.
  intros [_ Hle]. unfold check_audio_cell, dataset_getitem, randint.
  split; [lia|]. split; [|split].
  - by rewrite lookup_ge_None_2.
  - intros printed e.
    destruct (rows !! rand_int) as [row|] eqn:Hrow.
    + destruct (Audio (speech row)); intros [=].
    + apply lookup_ge_None in Hrow. lia.
  - intros [row Hrow]%lookup_lt_is_Some_2. exists row. by rewrite Hrow.
Qed.

Lemma rand_int_out_of_bounds_witness :
  randint 0 1 1
  ∧ check_audio_cell (λ samples : list nat, inr (length samples) : unit + nat)
      (train_split (prepare example_rows)) 1
    = ([], inl (Lookup (IndexError 1 1)))
  ∧ (∀ printed e,
       check_audio_cell (λ samples : list nat, inr (length samples) : unit + nat)
         (train_split (prepare example_rows)) 0 = (printed, inl (Lookup e)) →
       0 = 1)
  ∧ (0 < 1 →
     ∃ row, train_split (prepare example_rows) !! 0 = Some row
            ∧ check_audio_cell
                (λ samples : list nat, inr (length samples) : unit + nat)
                (train_split (prepare example_rows)) 0
              = ([target_text row],
                 match (inr (length (speech row)) : unit + nat) with
                 | inl e => inl (FromAudio e)
                 | inr w => inr w
                 end)).
Proof.
  apply (rand_int_out_of_bounds
           (λ samples : list nat, inr (length samples) : unit + nat)
           (train_split (prepare example_rows)) 0).
  split; simpl; lia.
Defined.

(** ** Names and locations *)

Lemma append_inj_r (s1 s2 t : string) : s1 +:+ t = s2 +:+ t → s1 = s2.
Proof.
  intros H. apply (f_equal String.list_ascii_of_string) in H.
  rewrite !list_ascii_of_string_app in H. apply (inj (λ l, l ++ _)%list) in H.
  rewrite <- (String.string_of_list_ascii_of_string s1).
  rewrite <- (String.string_of_list_ascii_of_string s2). by rewrite H.
Qed.

Lemma append_cons (c : ascii) (s t : string) :
  String c s +:+ t = String c (s +:+ t).
Proof. reflexivity. Qed.

(** X9: the training job, the model and the endpoint are tagged by the
    same [id]: each name determines the id it was made from, so different
    ids give different names, and names of different kinds never
    coincide. *)
Theorem names_tagged_by_id :
  Inj (=) (=) TRAINING_JOB_NAME
  ∧ Inj (=) (=) model_name
  ∧ Inj (=) (=) endpoint_name
  ∧ ∀ id1 id2 id3,
      TRAINING_JOB_NAME id1 ≠ model_name id2
      ∧ TRAINING_JOB_NAME id1 ≠ endpoint_name id3
      ∧ model_name id2 ≠ endpoint_name id3.
Proof.
  split_and!.
  - intros id1 id2 H. by apply (inj (String.app _)), (inj pretty) in H.
  - intros id1 id2 H. by apply (inj (String.app _)), (inj pretty) in H.
  - intros id1 id2 H. by apply (inj (String.app _)), (inj pretty) in H.
  - intros id1 id2 id3.
    unfold TRAINING_JOB_NAME, model_name, endpoint_name.
    rewrite !append_cons. split_and!; intros H; simplify_eq.
Qed.

(** X10: the vocabulary is uploaded to the very object that [vocab_url]
    hands to the training job; the locations of the vocabulary, of the two
    saved splits and of the training output are pairwise different for
    every bucket, prefix and id; and the output location determines the
    id, so two training runs never share it. *)
Theorem s3_locations (BUCKET PREFIX : string) :
  vocab_url BUCKET PREFIX = "s3://" +:+ BUCKET +:+ "/" +:+ vocab_key PREFIX
  ∧ training_input_path BUCKET PREFIX ≠ test_input_path BUCKET PREFIX
  ∧ vocab_url BUCKET PREFIX ≠ training_input_path BUCKET PREFIX
  ∧ vocab_url BUCKET PREFIX ≠ test_input_path BUCKET PREFIX
  ∧ (∀ id, OUTPUT_PATH BUCKET PREFIX id ≠ vocab_url BUCKET PREFIX
           ∧ OUTPUT_PATH BUCKET PREFIX id ≠ training_input_path BUCKET PREFIX
           ∧ OUTPUT_PATH BUCKET PREFIX id ≠ test_input_path BUCKET PREFIX)
  ∧ Inj (=) (=) (OUTPUT_PATH BUCKET PREFIX).
Proof.
  unfold vocab_url, vocab_key, training_input_path, test_input_path,
    OUTPUT_PATH, TRAINING_JOB_NAME.
  split_and!; [done|..].
  - intros H. by do 4 apply (inj (String.app _)) in H.
  - intros H. by do 4 apply (inj (String.app _)) in H.
  - intros H. by do 4 apply (inj (String.app _)) in H.
  - intros id. split_and!; intros H;
      do 4 apply (inj (String.app _)) in H;
      rewrite !append_cons in H; simplify_eq.
  - intros id1 id2 H. do 5 apply (inj (String.app _)) in H.
    by apply append_inj_r, (inj (String.app _)), (inj pretty) in H.
Qed.

(** ** Indices and positions *)

(** X11: a returned mapping numbers the characters by their position in
    [vocab_list]: every character of the list other than the bar has, as
    its index, the position at which the list holds it, the space under
    the key of the delimiter and any other character under its own
    one-character key. *)
Theorem vocab_dict_positions (dataset : DatasetDict) (vocab_list : list ascii)
    (m : gmap string nat) (i : nat) (c : ascii) :
  vocab_list_of dataset vocab_list →
  vocab_dict vocab_list = inr m →
  vocab_list !! i = Some c →
  c ≠ "|"%char →
  m !! (if decide (c = " "%char) then "|" else char_key c) = Some i.
Proof.
  intros [_ [Hnd _]]%vocab_list_of_iff Hm Hi Hbar.
  destruct (decide (" "%char ∈ vocab_list)) as [[j Hj]%list_elem_of_lookup_1|Hsp].
  - rewrite (vocab_dict_with_reserved _ j) in Hm by done.
    injection Hm as <-. apply final_lookup; [done..|].
    case_decide as Hc.
    + subst c. do 2 right. left. split; [done|]. by eapply NoDup_lookup.
    + do 3 right. by exists c.
  - by rewrite vocab_dict_KeyError in Hm.
Qed.

Lemma vocab_dict_positions_witness :
  example_vocab !! (if decide ("b"%char = " "%char) then "|" else char_key "b")
  = Some 2.
Proof.
  apply (vocab_dict_positions example_dataset ["a"; " "; "b"]%char).
  - apply vocab_list_of_iff, (bool_decide_unpack _). by vm_compute.
  - by vm_compute.
  - reflexivity.
  - discriminate.
Defined.
